(** * Header chain storage, header sync and transaction hashing of pathfinder

    A shallow embedding of
    - [crates/storage/src/connection/block.rs] (header table, canonical index,
      purge, ancestor queries, header reads),
    - [crates/pathfinder/src/sync/p2p/headers.rs] (gap search, continuity
      filter, header verification, persistence),
    - [crates/common/src/header.rs] (block header, signature and hash checks),
    - [crates/gateway-types/src/transaction_hash.rs] (transaction hashes).

    Field elements, hashes and block numbers are [Z]. SQL tables are lists of
    rows; a statement that deletes rows is a [filter]; the database
    transaction is a state and error monad over the whole store. *)

From Stdlib Require Import ZArith List Bool Lia String Ascii.
Import ListNotations.
Open Scope Z_scope.

(** ** Results, errors and the database transaction monad *)

Inductive Result (A E : Type) : Type :=
| Ok : A -> Result A E
| Err : E -> Result A E.
Arguments Ok {A E} _.
Arguments Err {A E} _.

(** The [anyhow::Error]s a database statement can produce. *)
Inductive DbError : Type :=
| ConstraintViolation      (* UNIQUE / PRIMARY KEY violated by an INSERT *)
| QueryReturnedNoRows      (* [query_row] without [optional()] found no row *)
| IntegerConversion.       (* [try_into_sql_int] out of the i64 range *)

Definition BlockNumber := Z.
Definition BlockHash := Z.
Definition Felt := Z.
(** A starknet version, interned by the [starknet_versions] table; 0 is the
    default version 0.0.0. *)
Definition StarknetVersion := Z.

(** [pathfinder_common::BlockHeader] *)
Record BlockHeader := {
  hash : BlockHash;
  parent_hash : BlockHash;
  number : BlockNumber;
  timestamp : Z;
  eth_l1_gas_price : Z;
  strk_l1_gas_price : Z;
  sequencer_address : Felt;
  starknet_version : StarknetVersion;
  class_commitment : Felt;
  event_commitment : Felt;
  state_commitment : Felt;
  storage_commitment : Felt;
  transaction_commitment : Felt;
  transaction_count : Z;
  event_count : Z
}.

(** A row of the [block_headers] table: the parent hash is not stored. *)
Record HeaderRow := {
  row_number : BlockNumber;
  row_hash : BlockHash;
  row_storage_commitment : Felt;
  row_timestamp : Z;
  row_eth_l1_gas_price : Z;
  row_strk_l1_gas_price : Z;
  row_sequencer_address : Felt;
  row_version_id : option Z;
  row_transaction_commitment : Felt;
  row_event_commitment : Felt;
  row_state_commitment : Felt;
  row_class_commitment : Felt;
  row_transaction_count : Z;
  row_event_count : Z
}.

(** A row of [starknet_transactions]; rows are found by [block_hash]. *)
Record TransactionRow := {
  tx_hash : Felt;
  tx_idx : Z;
  block_hash : BlockHash
}.

(** The tables whose rows carry a [block_number] column, besides the header
    table and the canonical index. *)
Inductive IndexTable : Type :=
| contract_roots            (* contract_address, root_index *)
| class_commitment_leaves   (* hash, compiled_class_hash *)
| contract_state_hashes     (* contract_address, state_hash *)
| class_roots               (* root_index *)
| storage_roots             (* root_index *)
| block_signatures          (* signature_r, signature_s *)
| nonce_updates             (* contract_address, nonce *)
| storage_updates           (* contract_address, storage_address, value *)
| contract_updates.         (* contract_address, class_hash *)

Definition IndexTable_eqb (a b : IndexTable) : bool :=
  match a, b with
  | contract_roots, contract_roots
  | class_commitment_leaves, class_commitment_leaves
  | contract_state_hashes, contract_state_hashes
  | class_roots, class_roots
  | storage_roots, storage_roots
  | block_signatures, block_signatures
  | nonce_updates, nonce_updates
  | storage_updates, storage_updates
  | contract_updates, contract_updates => true
  | _, _ => false
  end.

(** A row of an [IndexTable]: its block number and its other columns. *)
Definition IndexRow := (BlockNumber * list Z)%type.

(** A row of [class_definitions]: class hash and the block number that
    declared it (NULL when unknown). *)
Definition ClassDefinitionRow := (Felt * option BlockNumber)%type.

Record Storage := {
  starknet_versions : list (Z * StarknetVersion);   (* id, version *)
  block_headers : list HeaderRow;
  canonical_blocks : list (BlockNumber * BlockHash);
  starknet_transactions : list TransactionRow;
  index_rows : IndexTable -> list IndexRow;
  class_definitions : list ClassDefinitionRow
}.

Definition set_starknet_versions v s :=
  {| starknet_versions := v; block_headers := block_headers s;
     canonical_blocks := canonical_blocks s;
     starknet_transactions := starknet_transactions s;
     index_rows := index_rows s; class_definitions := class_definitions s |}.
Definition set_block_headers v s :=
  {| starknet_versions := starknet_versions s; block_headers := v;
     canonical_blocks := canonical_blocks s;
     starknet_transactions := starknet_transactions s;
     index_rows := index_rows s; class_definitions := class_definitions s |}.
Definition set_canonical_blocks v s :=
  {| starknet_versions := starknet_versions s; block_headers := block_headers s;
     canonical_blocks := v;
     starknet_transactions := starknet_transactions s;
     index_rows := index_rows s; class_definitions := class_definitions s |}.
Definition set_starknet_transactions v s :=
  {| starknet_versions := starknet_versions s; block_headers := block_headers s;
     canonical_blocks := canonical_blocks s;
     starknet_transactions := v;
     index_rows := index_rows s; class_definitions := class_definitions s |}.
Definition set_index_rows (t : IndexTable) (v : list IndexRow) s :=
  {| starknet_versions := starknet_versions s; block_headers := block_headers s;
     canonical_blocks := canonical_blocks s;
     starknet_transactions := starknet_transactions s;
     index_rows := fun t' => if IndexTable_eqb t t' then v else index_rows s t';
     class_definitions := class_definitions s |}.
Definition set_class_definitions v s :=
  {| starknet_versions := starknet_versions s; block_headers := block_headers s;
     canonical_blocks := canonical_blocks s;
     starknet_transactions := starknet_transactions s;
     index_rows := index_rows s; class_definitions := v |}.

(** A database transaction ([pathfinder_storage::Transaction]) running a
    fallible computation: the statements executed before an error keep their
    effect until the transaction is committed or dropped. *)
Definition Tx (A : Type) := Storage -> Result A DbError * Storage.

Definition ret {A} (a : A) : Tx A := fun s => (Ok a, s).
Definition fail {A} (e : DbError) : Tx A := fun s => (Err e, s).
Definition bind {A B} (m : Tx A) (k : A -> Tx B) : Tx B :=
  fun s => match m s with
           | (Ok a, s') => k a s'
           | (Err e, s') => (Err e, s')
           end.
Definition lift {A} (r : Result A DbError) : Tx A :=
  match r with Ok a => ret a | Err e => fail e end.
Definition modify (f : Storage -> Storage) : Tx unit := fun s => (Ok tt, f s).
Definition get : Tx Storage := fun s => (Ok s, s).

Notation "x <- m ;; k" := (bind m (fun x => k))
  (at level 61, m at next level, right associativity).

(** ** Header insertion *)

Definition i64_max : Z := 9223372036854775807.

(** [TryIntoSql::try_into_sql_int] on a [usize]. *)
Definition try_into_sql_int (x : Z) : Result Z DbError :=
  if x <=? i64_max then Ok x else Err IntegerConversion.

Definition max_version_id (vs : list (Z * StarknetVersion)) : Z :=
  fold_left (fun m r => Z.max m (fst r)) vs 0.

(** [intern_starknet_version]: reuse the id of a known version, otherwise
    insert it with the next autoincrement id. *)
Definition intern_starknet_version (version : StarknetVersion) : Tx Z :=
  s <- get ;;
  match find (fun r => snd r =? version) (starknet_versions s) with
  | Some (id, _) => ret id
  | None =>
      let id := max_version_id (starknet_versions s) + 1 in
      _ <- modify (set_starknet_versions (starknet_versions s ++ [(id, version)])) ;;
      ret id
  end.

Definition header_row (header : BlockHeader) (version_id : Z)
  (transaction_count event_count : Z) : HeaderRow :=
  {| row_number := number header; row_hash := hash header;
     row_storage_commitment := storage_commitment header;
     row_timestamp := timestamp header;
     row_eth_l1_gas_price := eth_l1_gas_price header;
     row_strk_l1_gas_price := strk_l1_gas_price header;
     row_sequencer_address := sequencer_address header;
     row_version_id := Some version_id;
     row_transaction_commitment := transaction_commitment header;
     row_event_commitment := event_commitment header;
     row_state_commitment := state_commitment header;
     row_class_commitment := class_commitment header;
     row_transaction_count := transaction_count;
     row_event_count := event_count |}.

(** [INSERT INTO block_headers]: [number] is the primary key and [hash] is
    unique. *)
Definition sql_insert_header_row (r : HeaderRow) : Tx unit :=
  s <- get ;;
  if existsb (fun r' => (row_number r' =? row_number r) || (row_hash r' =? row_hash r))
       (block_headers s)
  then fail ConstraintViolation
  else modify (set_block_headers (block_headers s ++ [r])).

(** [INSERT INTO canonical_blocks(number, hash)]: [number] is the primary key. *)
Definition sql_insert_canonical (n : BlockNumber) (h : BlockHash) : Tx unit :=
  s <- get ;;
  if existsb (fun p => fst p =? n) (canonical_blocks s)
  then fail ConstraintViolation
  else modify (set_canonical_blocks (canonical_blocks s ++ [(n, h)])).

Definition insert_block_header (header : BlockHeader) : Tx unit :=
  version_id <- intern_starknet_version (starknet_version header) ;;
  transaction_count <- lift (try_into_sql_int (transaction_count header)) ;;
  event_count <- lift (try_into_sql_int (event_count header)) ;;
  _ <- sql_insert_header_row (header_row header version_id transaction_count event_count) ;;
  sql_insert_canonical (number header) (hash header).

(** ** Purge *)

(** [DELETE FROM starknet_transactions WHERE block_hash = (SELECT hash FROM
    canonical_blocks WHERE number = ?)]: when the subquery finds no row it is
    NULL and the comparison holds for no row. *)
Definition sql_delete_transactions_of (n : BlockNumber) : Tx unit :=
  s <- get ;;
  match find (fun p => fst p =? n) (canonical_blocks s) with
  | Some (_, h) =>
      modify (set_starknet_transactions
                (filter (fun t => negb (block_hash t =? h)) (starknet_transactions s)))
  | None => ret tt
  end.

Definition cascading_tables : list IndexTable :=
  [block_signatures; nonce_updates; storage_updates; contract_updates].

(** Modelled from the spec: the foreign-key actions of the database schema,
    whose migrations are not part of the sources. The spec (4.1) says a purge
    removes the rows keyed by the block number from every table except the
    class definitions, and (S6) that a purged block's class definition stays
    with its block linkage gone; the tables keyed by block number that
    [purge_block] does not name (signatures written by [persist], the
    state-update tables read by the rollback tool) reference
    [canonical_blocks(number)] with [ON DELETE CASCADE], and
    [class_definitions.block_number] with [ON DELETE SET NULL]. *)
Definition on_delete_canonical (removed : list BlockNumber) (s : Storage) : Storage :=
  let gone n := existsb (fun m => m =? n) removed in
  let s := fold_left
             (fun s t => set_index_rows t
                           (filter (fun r => negb (gone (fst r))) (index_rows s t)) s)
             cascading_tables s in
  set_class_definitions
    (map (fun c => match snd c with
                   | Some n => if gone n then (fst c, None) else c
                   | None => c
                   end) (class_definitions s)) s.

(** [DELETE FROM canonical_blocks WHERE number = ?], with the foreign-key
    actions of the deleted rows. *)
Definition sql_delete_canonical (n : BlockNumber) : Tx unit :=
  s <- get ;;
  let removed := map fst (filter (fun p => fst p =? n) (canonical_blocks s)) in
  modify (fun s => on_delete_canonical removed
                     (set_canonical_blocks
                        (filter (fun p => negb (fst p =? n)) (canonical_blocks s)) s)).

(** [DELETE FROM block_headers WHERE number = ?] *)
Definition sql_delete_headers (n : BlockNumber) : Tx unit :=
  s <- get ;;
  modify (set_block_headers (filter (fun r => negb (row_number r =? n)) (block_headers s))).

(** [DELETE FROM <table> WHERE block_number = ?] *)
Definition sql_delete_index (t : IndexTable) (n : BlockNumber) : Tx unit :=
  s <- get ;;
  modify (set_index_rows t (filter (fun r => negb (fst r =? n)) (index_rows s t))).

Definition purge_block (block : BlockNumber) : Tx unit :=
  _ <- sql_delete_transactions_of block ;;
  _ <- sql_delete_canonical block ;;
  _ <- sql_delete_headers block ;;
  _ <- sql_delete_index contract_roots block ;;
  _ <- sql_delete_index class_commitment_leaves block ;;
  _ <- sql_delete_index contract_state_hashes block ;;
  _ <- sql_delete_index class_roots block ;;
  _ <- sql_delete_index storage_roots block ;;
  ret tt.

(** ** Reads *)

Inductive BlockId : Type :=
| Latest
| Number (n : BlockNumber)
| Hash (h : BlockHash).

(** [SELECT EXISTS(SELECT 1 FROM canonical_blocks ...)] *)
Definition block_exists (block : BlockId) (s : Storage) : bool :=
  match block with
  | Latest => negb (match canonical_blocks s with [] => true | _ => false end)
  | Number n => existsb (fun p => fst p =? n) (canonical_blocks s)
  | Hash h => existsb (fun p => snd p =? h) (canonical_blocks s)
  end.

(** [ORDER BY number DESC LIMIT 1] over header rows. *)
Definition max_by_number (rows : list HeaderRow) : option HeaderRow :=
  fold_left (fun acc r => match acc with
                          | None => Some r
                          | Some b => if row_number b <? row_number r then Some r else Some b
                          end) rows None.

Definition number_and_hash (r : HeaderRow) : BlockNumber * BlockHash :=
  (row_number r, row_hash r).

(** [next_ancestor]: the highest stored header strictly below [target]. *)
Definition next_ancestor (target : BlockNumber) (s : Storage)
  : option (BlockNumber * BlockHash) :=
  option_map number_and_hash
    (max_by_number (filter (fun r => row_number r <? target) (block_headers s))).

(** [next_ancestor_without_parent]: the highest stored header at or below
    [target] such that no header has number [number - 1]. *)
Definition next_ancestor_without_parent (target : BlockNumber) (s : Storage)
  : option (BlockNumber * BlockHash) :=
  option_map number_and_hash
    (max_by_number
       (filter (fun r => (row_number r <=? target)
                         && negb (existsb (fun r2 => row_number r - 1 =? row_number r2)
                                          (block_headers s)))
          (block_headers s))).

(** The [starknet_versions] side of the [LEFT JOIN]; a NULL version reads as
    the default version. *)
Definition version_of (version_id : option Z) (s : Storage) : StarknetVersion :=
  match version_id with
  | Some id => match find (fun v => fst v =? id) (starknet_versions s) with
               | Some (_, v) => v
               | None => 0
               end
  | None => 0
  end.

Definition header_of_row (r : HeaderRow) (version : StarknetVersion) : BlockHeader :=
  {| hash := row_hash r; parent_hash := 0; number := row_number r;
     timestamp := row_timestamp r; eth_l1_gas_price := row_eth_l1_gas_price r;
     strk_l1_gas_price := row_strk_l1_gas_price r;
     sequencer_address := row_sequencer_address r; starknet_version := version;
     class_commitment := row_class_commitment r;
     event_commitment := row_event_commitment r;
     state_commitment := row_state_commitment r;
     storage_commitment := row_storage_commitment r;
     transaction_commitment := row_transaction_commitment r;
     transaction_count := row_transaction_count r; event_count := row_event_count r |}.

Definition with_parent_hash (h : BlockHeader) (p : BlockHash) : BlockHeader :=
  {| hash := hash h; parent_hash := p; number := number h; timestamp := timestamp h;
     eth_l1_gas_price := eth_l1_gas_price h; strk_l1_gas_price := strk_l1_gas_price h;
     sequencer_address := sequencer_address h; starknet_version := starknet_version h;
     class_commitment := class_commitment h; event_commitment := event_commitment h;
     state_commitment := state_commitment h; storage_commitment := storage_commitment h;
     transaction_commitment := transaction_commitment h;
     transaction_count := transaction_count h; event_count := event_count h |}.

(** The row [block_header] selects from [block_headers]. *)
Definition select_header (block : BlockId) (s : Storage) : option HeaderRow :=
  match block with
  | Latest => max_by_number (block_headers s)
  | Number n => find (fun r => row_number r =? n) (block_headers s)
  | Hash h => find (fun r => row_hash r =? h) (block_headers s)
  end.

(** [block_header]: the parent hash is filled in by a second [query_row] on
    the previous number, whose missing row is an error. *)
Definition block_header (block : BlockId) : Tx (option BlockHeader) :=
  s <- get ;;
  match select_header block s with
  | None => ret None
  | Some r =>
      let header := header_of_row r (version_of (row_version_id r) s) in
      if negb (row_number r =? 0) then
        match find (fun r' => row_number r' =? row_number r - 1) (block_headers s) with
        | Some p => ret (Some (with_parent_hash header (row_hash p)))
        | None => fail QueryReturnedNoRows
        end
      else ret (Some header)
  end.

(** ** Header sync ([sync/p2p/headers.rs]) *)

(** [BlockCommitmentSignature]: r and s. *)
Definition BlockCommitmentSignature := (Felt * Felt)%type.

Record SignedBlockHeader := {
  header : BlockHeader;
  signature : BlockCommitmentSignature
}.

(** [p2p::PeerData]: the data and the peer it came from. *)
Record PeerData := {
  peer : Z;
  data : SignedBlockHeader
}.

Inductive HeaderSyncError : Type :=
| DatabaseError (e : DbError)
| BadSignature (x : PeerData)
| BadBlockHash (x : PeerData)
| Discontinuity (x : PeerData).

Definition SignedHeaderResult := Result PeerData HeaderSyncError.

(** A call that either returns or panics (a failed [expect], [todo!()]). *)
Inductive Outcome (A : Type) : Type :=
| Returns (a : A)
| Panics.
Arguments Returns {A} _.
Arguments Panics {A}.

(** [HeaderGap]: the inclusive range [tail, head] of missing headers. *)
Record HeaderGap := {
  head : BlockNumber;
  head_hash : BlockHash;
  tail : BlockNumber;
  tail_parent_hash : BlockHash
}.

(** [next_gap], run against a read transaction (its reads cannot fail in this
    model). [unwrap_or_default] on [next_ancestor] gives
    [(BlockNumber::default(), BlockHash::default()) = (0, 0)]. *)
Definition next_gap (head : BlockNumber) (head_hash : BlockHash) (db : Storage)
  : option HeaderGap :=
  let head_exists := block_exists (Number head) db in
  let gap_head := if head_exists
                  then next_ancestor_without_parent head db
                  else Some (head, head_hash) in
  match gap_head with
  | None => None
  | Some (gh, ghh) =>
      let gap_tail := match next_ancestor gh db with
                      | Some t => t
                      | None => (0, 0)
                      end in
      Some {| head := gh; head_hash := ghh;
              tail := fst gap_tail + 1; tail_parent_hash := snd gap_tail |}
  end.

(** [check_continuity]: the state is [(number, hash, poisoned)]; [None] ends
    the stream (it is used with [StreamExt::scan]). *)
Definition check_continuity (expected : BlockNumber * BlockHash * bool) (input : PeerData)
  : option SignedHeaderResult * (BlockNumber * BlockHash * bool) :=
  let '(en, eh, poisoned) := expected in
  if poisoned then (None, expected)
  else
    let h := header (data input) in
    let is_correct := (number h =? en) && (hash h =? eh) in
    (* Update expectation. *)
    let expected := (number h, hash h, poisoned) in
    if is_correct then (Some (Ok input), expected)
    else (Some (Err (Discontinuity input)), (number h, hash h, true)).

(** [stream.scan(expected, check_continuity)]: the items emitted, the stream
    ending at the first [None]. *)
Fixpoint continuity_scan (expected : BlockNumber * BlockHash * bool) (inputs : list PeerData)
  : list SignedHeaderResult :=
  match inputs with
  | [] => []
  | x :: xs =>
      match check_continuity expected x with
      | (None, _) => []
      | (Some r, expected') => r :: continuity_scan expected' xs
      end
  end.

(** [verify], over the two header checks it calls. The blocking task's panic
    surfaces through [expect("Task should not crash")]. *)
Definition verify_with (verify_signature : SignedBlockHeader -> bool)
  (verify_hash : BlockHeader -> Outcome bool) (signed_header : PeerData)
  : Outcome SignedHeaderResult :=
  if negb (verify_signature (data signed_header))
  then Returns (Err (BadSignature signed_header))
  else match verify_hash (header (data signed_header)) with
       | Panics => Panics
       | Returns false => Returns (Err (BadBlockHash signed_header))
       | Returns true => Returns (Ok signed_header)
       end.

(** [SignedBlockHeader::verify_signature]: [// TODO: implement this. true] *)
Definition verify_signature (_ : SignedBlockHeader) : bool := true.

(** [BlockHeader::verify_hash]: [todo!()] *)
Definition verify_hash (_ : BlockHeader) : Outcome bool := Panics.

Definition verify (signed_header : PeerData) : Outcome SignedHeaderResult :=
  verify_with verify_signature verify_hash signed_header.

(** Modelled from the spec: [Transaction::insert_signature], not part of the
    sources; [persist] writes every header and its signature, the signature
    keyed by the header's block number. *)
Definition insert_signature (n : BlockNumber) (sig : BlockCommitmentSignature) : Tx unit :=
  s <- get ;;
  modify (set_index_rows block_signatures
            (index_rows s block_signatures ++ [(n, [fst sig; snd sig])])).

Fixpoint persist_all (signed_headers : list PeerData) : Tx unit :=
  match signed_headers with
  | [] => ret tt
  | x :: xs =>
      _ <- insert_block_header (header (data x)) ;;
      _ <- insert_signature (number (header (data x))) (signature (data x)) ;;
      persist_all xs
  end.

Definition last_opt {A} (l : list A) : option A :=
  match rev l with [] => None | x :: _ => Some x end.

(** [persist]: the inserts run in one transaction; on an error the transaction
    is dropped (rolled back) and the storage is the one before the call;
    otherwise it is committed and [signed_headers.pop()] is returned, which
    panics on an empty batch. *)
Definition persist (signed_headers : list PeerData) (storage : Storage)
  : Outcome (SignedHeaderResult * Storage) :=
  match persist_all signed_headers storage with
  | (Err e, _) => Returns (Err (DatabaseError e), storage)
  | (Ok _, committed) =>
      match last_opt signed_headers with
      | Some h => Returns (Ok h, committed)
      | None => Panics
      end
  end.

(** ** Transaction hashes ([gateway-types/src/transaction_hash.rs]) *)

Module TransactionHash.

(** The hash primitives of [pathfinder_crypto] and [sha3]. *)
Record Crypto := {
  pedersen_hash : Felt -> Felt -> Felt;
  poseidon_hash_many : list Felt -> Felt;
  sn_keccak : string -> Felt        (* truncated_keccak(Keccak256(bytes)) *)
}.

Inductive DataAvailabilityMode := L1 | L2.
Definition da_as_u64 (m : DataAvailabilityMode) : Z := match m with L1 => 0 | L2 => 1 end.

Record ResourceBound := { max_amount : Z; max_price_per_unit : Z }.
Record ResourceBounds := { l1_gas : ResourceBound; l2_gas : ResourceBound }.

Record DeclareTransactionV0V1 := {
  dv01_class_hash : Felt; dv01_max_fee : Felt; dv01_nonce : Felt;
  dv01_sender_address : Felt; dv01_transaction_hash : Felt }.
Record DeclareTransactionV2 := {
  dv2_class_hash : Felt; dv2_max_fee : Felt; dv2_nonce : Felt;
  dv2_sender_address : Felt; dv2_compiled_class_hash : Felt;
  dv2_transaction_hash : Felt }.
Record DeclareTransactionV3 := {
  dv3_class_hash : Felt; dv3_nonce : Felt;
  dv3_nonce_data_availability_mode : DataAvailabilityMode;
  dv3_fee_data_availability_mode : DataAvailabilityMode;
  dv3_resource_bounds : ResourceBounds; dv3_tip : Z; dv3_paymaster_data : list Felt;
  dv3_sender_address : Felt; dv3_compiled_class_hash : Felt;
  dv3_account_deployment_data : list Felt; dv3_transaction_hash : Felt }.
Record DeployTransaction := {
  dep_contract_address : Felt; dep_constructor_calldata : list Felt;
  dep_version : Felt; dep_transaction_hash : Felt }.
Record DeployAccountTransactionV0V1 := {
  dav01_contract_address : Felt; dav01_max_fee : Felt; dav01_version : Felt;
  dav01_contract_address_salt : Felt; dav01_nonce : Felt;
  dav01_constructor_calldata : list Felt; dav01_class_hash : Felt;
  dav01_transaction_hash : Felt }.
Record DeployAccountTransactionV3 := {
  dav3_sender_address : Felt; dav3_nonce : Felt;
  dav3_nonce_data_availability_mode : DataAvailabilityMode;
  dav3_fee_data_availability_mode : DataAvailabilityMode;
  dav3_resource_bounds : ResourceBounds; dav3_tip : Z; dav3_paymaster_data : list Felt;
  dav3_contract_address_salt : Felt; dav3_constructor_calldata : list Felt;
  dav3_class_hash : Felt; dav3_transaction_hash : Felt }.
Record InvokeTransactionV0 := {
  iv0_calldata : list Felt; iv0_sender_address : Felt; iv0_entry_point_selector : Felt;
  iv0_max_fee : Felt; iv0_transaction_hash : Felt }.
Record InvokeTransactionV1 := {
  iv1_calldata : list Felt; iv1_sender_address : Felt; iv1_max_fee : Felt;
  iv1_nonce : Felt; iv1_transaction_hash : Felt }.
Record InvokeTransactionV3 := {
  iv3_nonce : Felt;
  iv3_nonce_data_availability_mode : DataAvailabilityMode;
  iv3_fee_data_availability_mode : DataAvailabilityMode;
  iv3_resource_bounds : ResourceBounds; iv3_tip : Z; iv3_paymaster_data : list Felt;
  iv3_account_deployment_data : list Felt; iv3_calldata : list Felt;
  iv3_sender_address : Felt; iv3_transaction_hash : Felt }.
Record L1HandlerTransaction := {
  l1h_contract_address : Felt; l1h_entry_point_selector : Felt; l1h_nonce : Felt;
  l1h_calldata : list Felt; l1h_version : Felt; l1h_transaction_hash : Felt }.

Inductive DeclareTransaction :=
| Declare_V0 (t : DeclareTransactionV0V1)
| Declare_V1 (t : DeclareTransactionV0V1)
| Declare_V2 (t : DeclareTransactionV2)
| Declare_V3 (t : DeclareTransactionV3).
Inductive DeployAccountTransaction :=
| DeployAccount_V0V1 (t : DeployAccountTransactionV0V1)
| DeployAccount_V3 (t : DeployAccountTransactionV3).
Inductive InvokeTransaction :=
| Invoke_V0 (t : InvokeTransactionV0)
| Invoke_V1 (t : InvokeTransactionV1)
| Invoke_V3 (t : InvokeTransactionV3).
Inductive Transaction :=
| Declare (t : DeclareTransaction)
| Deploy (t : DeployTransaction)
| DeployAccount (t : DeployAccountTransaction)
| Invoke (t : InvokeTransaction)
| L1Handler (t : L1HandlerTransaction).

(** [Transaction::hash] *)
Definition txn_hash (txn : Transaction) : Felt :=
  match txn with
  | Declare (Declare_V0 t) | Declare (Declare_V1 t) => dv01_transaction_hash t
  | Declare (Declare_V2 t) => dv2_transaction_hash t
  | Declare (Declare_V3 t) => dv3_transaction_hash t
  | Deploy t => dep_transaction_hash t
  | DeployAccount (DeployAccount_V0V1 t) => dav01_transaction_hash t
  | DeployAccount (DeployAccount_V3 t) => dav3_transaction_hash t
  | Invoke (Invoke_V0 t) => iv0_transaction_hash t
  | Invoke (Invoke_V1 t) => iv1_transaction_hash t
  | Invoke (Invoke_V3 t) => iv3_transaction_hash t
  | L1Handler t => l1h_transaction_hash t
  end.

Inductive VerifyResult := Match | Mismatch (h : Felt).

Inductive NonceOrClassHash :=
| Nonce (n : Felt)
| ClassHash (c : Felt)
| NoNonceOrClassHash.

(** [Felt::from_be_slice] on the ASCII bytes of a prefix. *)
Fixpoint felt_from_be_slice_acc (acc : Z) (s : string) : Felt :=
  match s with
  | EmptyString => acc
  | String c rest => felt_from_be_slice_acc (acc * 256 + Z.of_nat (nat_of_ascii c)) rest
  end.
Definition felt_from_be_slice (s : string) : Felt := felt_from_be_slice_acc 0 s.

Definition unwrap_or (o : option Felt) : Felt := match o with Some x => x | None => 0 end.

Section Hashing.
Variable crypto : Crypto.

(** Modelled from the spec: [HashChain] of [pathfinder_crypto]: the
    accumulator starts at zero, absorbs [acc := pedersen(acc, x)], and
    finalises as [pedersen(acc, count)]. *)
Record HashChain := { hc_acc : Felt; hc_count : Z }.
Definition hash_chain_default : HashChain := {| hc_acc := 0; hc_count := 0 |}.
Definition update (h : HashChain) (x : Felt) : HashChain :=
  {| hc_acc := pedersen_hash crypto (hc_acc h) x; hc_count := hc_count h + 1 |}.
Definition finalize (h : HashChain) : Felt := pedersen_hash crypto (hc_acc h) (hc_count h).
Definition hash_chain (xs : list Felt) : Felt := finalize (fold_left update xs hash_chain_default).

(** Modelled from the spec: [PoseidonHasher]: [finish] is the Poseidon hash
    of the elements written, in order. *)
Definition poseidon (xs : list Felt) : Felt := poseidon_hash_many crypto xs.

(** [legacy_compute_txn_hash] *)
Definition legacy_compute_txn_hash (prefix : string) (address : Felt)
  (entry_point_selector : option Felt) (list_hash chain_id : Felt)
  (additional_data : option Felt) : Felt :=
  let h := fold_left update
             [felt_from_be_slice prefix; address; unwrap_or entry_point_selector;
              list_hash; chain_id] hash_chain_default in
  let h := match additional_data with Some felt => update h felt | None => h end in
  finalize h.

(** [compute_txn_hash] *)
Definition compute_txn_hash (prefix : string) (version address : Felt)
  (entry_point_selector : option Felt) (list_hash : Felt) (max_fee : option Felt)
  (chain_id : Felt) (nonce_or_class_hash : NonceOrClassHash)
  (compiled_class_hash : option Felt) : Felt :=
  let h := fold_left update
             [felt_from_be_slice prefix; version; address; unwrap_or entry_point_selector;
              list_hash; unwrap_or max_fee; chain_id] hash_chain_default in
  let h := match nonce_or_class_hash with
           | Nonce n => update h n
           | ClassHash c => update h c
           | NoNonceOrClassHash => h
           end in
  let h := match compiled_class_hash with Some c => update h c | None => h end in
  finalize h.

(** [flattened_bounds]: name in bytes [8 - len, 8), the 64-bit amount in
    bytes [8, 16), the 128-bit price in bytes [16, 32). *)
Definition flattened_bounds (resource_name : string) (b : ResourceBound) : Felt :=
  Z.lor (Z.shiftl (felt_from_be_slice resource_name) 192)
        (Z.lor (Z.shiftl (max_amount b) 128) (max_price_per_unit b)).

Definition hash_fee_related_fields (tip : Z) (rb : ResourceBounds) : Felt :=
  poseidon [tip; flattened_bounds "L1_GAS" (l1_gas rb); flattened_bounds "L2_GAS" (l2_gas rb)].

Definition DA_AVAILABILITY_MODE_BITS : Z := 32.

(** [compute_v3_txn_hash] *)
Definition compute_v3_txn_hash (prefix : string) (version sender_address chain_id nonce : Felt)
  (tx_type_specific_data : list Felt) (tip : Z) (paymaster_data : list Felt)
  (nonce_data_availability_mode fee_data_availability_mode : DataAvailabilityMode)
  (resource_bounds : ResourceBounds) : Felt :=
  let fee_fields_hash := hash_fee_related_fields tip resource_bounds in
  let da_mode_concatenation :=
    Z.shiftl (da_as_u64 nonce_data_availability_mode) DA_AVAILABILITY_MODE_BITS
    + da_as_u64 fee_data_availability_mode in
  poseidon ([felt_from_be_slice prefix; version; sender_address; fee_fields_hash;
             poseidon paymaster_data; chain_id; nonce; da_mode_concatenation]
            ++ tx_type_specific_data).

Definition compute_declare_v0_hash (txn : DeclareTransactionV0V1) (chain_id : Felt) : Felt :=
  compute_txn_hash "declare" 0 (dv01_sender_address txn) None
    (finalize hash_chain_default) None chain_id (ClassHash (dv01_class_hash txn)) None.

Definition compute_declare_v1_hash (txn : DeclareTransactionV0V1) (chain_id : Felt) : Felt :=
  compute_txn_hash "declare" 1 (dv01_sender_address txn) None
    (hash_chain [dv01_class_hash txn]) (Some (dv01_max_fee txn)) chain_id
    (Nonce (dv01_nonce txn)) None.

Definition compute_declare_v2_hash (txn : DeclareTransactionV2) (chain_id : Felt) : Felt :=
  compute_txn_hash "declare" 2 (dv2_sender_address txn) None
    (hash_chain [dv2_class_hash txn]) (Some (dv2_max_fee txn)) chain_id
    (Nonce (dv2_nonce txn)) (Some (dv2_compiled_class_hash txn)).

Definition compute_declare_v3_hash (txn : DeclareTransactionV3) (chain_id : Felt) : Felt :=
  compute_v3_txn_hash "declare" 3 (dv3_sender_address txn) chain_id (dv3_nonce txn)
    [poseidon (dv3_account_deployment_data txn); dv3_class_hash txn;
     dv3_compiled_class_hash txn]
    (dv3_tip txn) (dv3_paymaster_data txn) (dv3_nonce_data_availability_mode txn)
    (dv3_fee_data_availability_mode txn) (dv3_resource_bounds txn).

(** The [CONSTRUCTOR] entry point: [sn_keccak] of the bytes [constructor]. *)
Definition CONSTRUCTOR : Felt := sn_keccak crypto "constructor".

(** The two deploy formulas, in the order [compute_deploy_hash] tries them. *)
Definition deploy_modern_hash (txn : DeployTransaction) (chain_id : Felt) : Felt :=
  compute_txn_hash "deploy" (dep_version txn) (dep_contract_address txn)
    (Some CONSTRUCTOR) (hash_chain (dep_constructor_calldata txn)) None chain_id
    NoNonceOrClassHash None.
Definition deploy_legacy_hash (txn : DeployTransaction) (chain_id : Felt) : Felt :=
  legacy_compute_txn_hash "deploy" (dep_contract_address txn) (Some CONSTRUCTOR)
    (hash_chain (dep_constructor_calldata txn)) chain_id None.

Definition compute_deploy_hash (txn : DeployTransaction) (chain_id : Felt) : Felt :=
  let h := deploy_modern_hash txn chain_id in
  if h =? dep_transaction_hash txn then h
  else deploy_legacy_hash txn chain_id.

Definition compute_deploy_account_v0v1_hash (txn : DeployAccountTransactionV0V1)
  (chain_id : Felt) : Felt :=
  compute_txn_hash "deploy_account" (dav01_version txn) (dav01_contract_address txn) None
    (hash_chain ([dav01_class_hash txn; dav01_contract_address_salt txn]
                 ++ dav01_constructor_calldata txn))
    (Some (dav01_max_fee txn)) chain_id (Nonce (dav01_nonce txn)) None.

Definition compute_deploy_account_v3_hash (txn : DeployAccountTransactionV3)
  (chain_id : Felt) : Felt :=
  compute_v3_txn_hash "deploy_account" 3 (dav3_sender_address txn) chain_id (dav3_nonce txn)
    [poseidon (dav3_constructor_calldata txn); dav3_class_hash txn;
     dav3_contract_address_salt txn]
    (dav3_tip txn) (dav3_paymaster_data txn) (dav3_nonce_data_availability_mode txn)
    (dav3_fee_data_availability_mode txn) (dav3_resource_bounds txn).

(** The two invoke v0 formulas, in the order [compute_invoke_v0_hash] tries
    them. *)
Definition invoke_v0_modern_hash (txn : InvokeTransactionV0) (chain_id : Felt) : Felt :=
  compute_txn_hash "invoke" 0 (iv0_sender_address txn)
    (Some (iv0_entry_point_selector txn)) (hash_chain (iv0_calldata txn))
    (Some (iv0_max_fee txn)) chain_id NoNonceOrClassHash None.
Definition invoke_v0_legacy_hash (txn : InvokeTransactionV0) (chain_id : Felt) : Felt :=
  legacy_compute_txn_hash "invoke" (iv0_sender_address txn)
    (Some (iv0_entry_point_selector txn)) (hash_chain (iv0_calldata txn)) chain_id None.

Definition compute_invoke_v0_hash (txn : InvokeTransactionV0) (chain_id : Felt) : Felt :=
  let h := invoke_v0_modern_hash txn chain_id in
  if h =? iv0_transaction_hash txn then h
  else invoke_v0_legacy_hash txn chain_id.

Definition compute_invoke_v1_hash (txn : InvokeTransactionV1) (chain_id : Felt) : Felt :=
  compute_txn_hash "invoke" 1 (iv1_sender_address txn) None
    (hash_chain (iv1_calldata txn)) (Some (iv1_max_fee txn)) chain_id
    (Nonce (iv1_nonce txn)) None.

Definition compute_invoke_v3_hash (txn : InvokeTransactionV3) (chain_id : Felt) : Felt :=
  compute_v3_txn_hash "invoke" 3 (iv3_sender_address txn) chain_id (iv3_nonce txn)
    [poseidon (iv3_account_deployment_data txn); poseidon (iv3_calldata txn)]
    (iv3_tip txn) (iv3_paymaster_data txn) (iv3_nonce_data_availability_mode txn)
    (iv3_fee_data_availability_mode txn) (iv3_resource_bounds txn).

(** The three L1 handler formulas, in the order [compute_l1_handler_hash]
    tries them. *)
Definition l1_handler_modern_hash (txn : L1HandlerTransaction) (chain_id : Felt) : Felt :=
  compute_txn_hash "l1_handler" (l1h_version txn) (l1h_contract_address txn)
    (Some (l1h_entry_point_selector txn)) (hash_chain (l1h_calldata txn)) None chain_id
    (Nonce (l1h_nonce txn)) None.
Definition l1_handler_legacy_nonce_hash (txn : L1HandlerTransaction) (chain_id : Felt) : Felt :=
  legacy_compute_txn_hash "l1_handler" (l1h_contract_address txn)
    (Some (l1h_entry_point_selector txn)) (hash_chain (l1h_calldata txn)) chain_id
    (Some (l1h_nonce txn)).
Definition l1_handler_legacy_invoke_hash (txn : L1HandlerTransaction) (chain_id : Felt) : Felt :=
  legacy_compute_txn_hash "invoke" (l1h_contract_address txn)
    (Some (l1h_entry_point_selector txn)) (hash_chain (l1h_calldata txn)) chain_id None.

Definition compute_l1_handler_hash (txn : L1HandlerTransaction) (chain_id : Felt) : Felt :=
  let h := l1_handler_modern_hash txn chain_id in
  if h =? l1h_transaction_hash txn then h
  else
    (* Starknet 0.7 L1 Handler transactions were using a nonce. *)
    let h := l1_handler_legacy_nonce_hash txn chain_id in
    if h =? l1h_transaction_hash txn then h
    else
      (* Oldest L1 Handler transactions were actually Invokes. *)
      l1_handler_legacy_invoke_hash txn chain_id.

Definition compute_transaction_hash (txn : Transaction) (chain_id : Felt) : Felt :=
  match txn with
  | Declare (Declare_V0 t) => compute_declare_v0_hash t chain_id
  | Declare (Declare_V1 t) => compute_declare_v1_hash t chain_id
  | Declare (Declare_V2 t) => compute_declare_v2_hash t chain_id
  | Declare (Declare_V3 t) => compute_declare_v3_hash t chain_id
  | Deploy t => compute_deploy_hash t chain_id
  | DeployAccount (DeployAccount_V0V1 t) => compute_deploy_account_v0v1_hash t chain_id
  | DeployAccount (DeployAccount_V3 t) => compute_deploy_account_v3_hash t chain_id
  | Invoke (Invoke_V0 t) => compute_invoke_v0_hash t chain_id
  | Invoke (Invoke_V1 t) => compute_invoke_v1_hash t chain_id
  | Invoke (Invoke_V3 t) => compute_invoke_v3_hash t chain_id
  | L1Handler t => compute_l1_handler_hash t chain_id
  end.

Definition verify (txn : Transaction) (chain_id : Felt) : VerifyResult :=
  let computed_hash := compute_transaction_hash txn chain_id in
  if computed_hash =? txn_hash txn then Match else Mismatch computed_hash.

End Hashing.

End TransactionHash.

(** ** More of [block.rs], [header.rs] and [headers.rs] *)

(** [ORDER BY number DESC LIMIT 1] over [canonical_blocks] rows. *)
Definition max_canonical (rows : list (BlockNumber * BlockHash))
  : option (BlockNumber * BlockHash) :=
  fold_left (fun acc p => match acc with
                          | None => Some p
                          | Some b => if fst b <? fst p then Some p else Some b
                          end) rows None.

(** [block_id]: the canonical [(number, hash)] of a block id; [optional()]
    turns the missing row into [None]. *)
Definition block_id (block : BlockId) (s : Storage) : option (BlockNumber * BlockHash) :=
  match block with
  | Latest => max_canonical (canonical_blocks s)
  | Number n =>
      option_map (fun p => (n, snd p)) (find (fun p => fst p =? n) (canonical_blocks s))
  | Hash h =>
      option_map (fun p => (fst p, h)) (find (fun p => snd p =? h) (canonical_blocks s))
  end.

(** [block_is_l1_accepted]; [l1_l2] is the value [tx.l1_l2_pointer()] reads. *)
Definition block_is_l1_accepted (l1_l2 : option BlockNumber) (block : BlockId) (s : Storage)
  : bool :=
  match l1_l2 with
  | None => false
  | Some l1_l2 =>
      match block_id block s with
      | None => false
      | Some (block_number, _) => block_number <=? l1_l2
      end
  end.

(** [BlockHeader::default()]: every field zero. *)
Definition default_header : BlockHeader :=
  {| hash := 0; parent_hash := 0; number := 0; timestamp := 0;
     eth_l1_gas_price := 0; strk_l1_gas_price := 0; sequencer_address := 0;
     starknet_version := 0; class_commitment := 0; event_commitment := 0;
     state_commitment := 0; storage_commitment := 0; transaction_commitment := 0;
     transaction_count := 0; event_count := 0 |}.

(** [BlockHeaderBuilder(BlockHeader)] *)
Record BlockHeaderBuilder := BlockHeaderBuilder_of { builder_header : BlockHeader }.

(** [BlockHeader::builder] *)
Definition builder : BlockHeaderBuilder := BlockHeaderBuilder_of default_header.

(** [BlockHeaderBuilder::with_number] *)
Definition with_number (b : BlockHeaderBuilder) (n : BlockNumber) : BlockHeaderBuilder :=
  let h := builder_header b in
  BlockHeaderBuilder_of
    {| hash := hash h; parent_hash := parent_hash h; number := n; timestamp := timestamp h;
       eth_l1_gas_price := eth_l1_gas_price h; strk_l1_gas_price := strk_l1_gas_price h;
       sequencer_address := sequencer_address h; starknet_version := starknet_version h;
       class_commitment := class_commitment h; event_commitment := event_commitment h;
       state_commitment := state_commitment h; storage_commitment := storage_commitment h;
       transaction_commitment := transaction_commitment h;
       transaction_count := transaction_count h; event_count := event_count h |}.

(** [BlockHeaderBuilder::with_parent_hash] *)
Definition with_parent_hash_b (b : BlockHeaderBuilder) (p : BlockHash) : BlockHeaderBuilder :=
  BlockHeaderBuilder_of (with_parent_hash (builder_header b) p).

(** [BlockHeader::child_builder]: [self.number + 1] is the addition of
    [BlockNumber], which stays far below the [u64] bound for stored blocks. *)
Definition child_builder (h : BlockHeader) : BlockHeaderBuilder :=
  with_parent_hash_b (with_number (BlockHeaderBuilder_of default_header) (number h + 1)) (hash h).

(** [BlockHeaderBuilder::finalize_with_hash] *)
Definition finalize_with_hash (b : BlockHeaderBuilder) (hsh : BlockHash) : BlockHeader :=
  let h := builder_header b in
  {| hash := hsh; parent_hash := parent_hash h; number := number h; timestamp := timestamp h;
     eth_l1_gas_price := eth_l1_gas_price h; strk_l1_gas_price := strk_l1_gas_price h;
     sequencer_address := sequencer_address h; starknet_version := starknet_version h;
     class_commitment := class_commitment h; event_commitment := event_commitment h;
     state_commitment := state_commitment h; storage_commitment := storage_commitment h;
     transaction_commitment := transaction_commitment h;
     transaction_count := transaction_count h; event_count := event_count h |}.

(** [HeaderSyncError::peer_id_and_data] *)
Definition peer_id_and_data (e : HeaderSyncError) : option PeerData :=
  match e with
  | DatabaseError _ => None
  | BadSignature x => Some x
  | BadBlockHash x => Some x
  | Discontinuity x => Some x
  end.

(** ** Properties stated over the embedding *)

(** Invariant I4: [canonical_blocks] and the [(number, hash)] projection of
    [block_headers] have the same rows. *)
Definition canonical_index_matches (s : Storage) : Prop :=
  forall p, In p (canonical_blocks s) <-> In p (map number_and_hash (block_headers s)).

Definition empty_storage : Storage :=
  {| starknet_versions := []; block_headers := []; canonical_blocks := [];
     starknet_transactions := []; index_rows := fun _ => []; class_definitions := [] |}.

(** A storage reached by inserting headers one after another. *)
Definition stored (headers : list BlockHeader) : Storage :=
  fold_left (fun s h => snd (insert_block_header h s)) headers empty_storage.

(** A header with the given number, hash and parent hash, other fields zero. *)
Definition mk_header (n h parent : Z) : BlockHeader :=
  {| hash := h; parent_hash := parent; number := n; timestamp := 0;
     eth_l1_gas_price := 0; strk_l1_gas_price := 0; sequencer_address := 0;
     starknet_version := 0; class_commitment := 0; event_commitment := 0;
     state_commitment := 0; storage_commitment := 0; transaction_commitment := 0;
     transaction_count := 0; event_count := 0 |}.

(** Block [n] has hash [100 + n]. *)
Definition chain_header (n : Z) : BlockHeader := mk_header n (100 + n) (100 + n - 1).

Definition peer_header (n : Z) : PeerData :=
  {| peer := 7; data := {| header := chain_header n; signature := (1, 2) |} |}.

(** Headers 0, 1, 2, 5 and 6 stored: blocks 3 and 4 are missing. *)
Definition gap_storage : Storage := stored (map chain_header [0; 1; 2; 5; 6]).

Definition header_present (s : Storage) (n : BlockNumber) : Prop :=
  In n (map row_number (block_headers s)).

(** The gap-completeness statement of the spec for one anchor. *)
Definition gap_complete (s : Storage) (anchor anchor_hash : Z) : Prop :=
  match next_gap anchor anchor_hash s with
  | None => forall n, 0 <= n <= anchor -> header_present s n
  | Some g =>
      (forall n, tail g <= n <= head g -> ~ header_present s n) /\
      (header_present s (tail g - 1) \/ tail g = 0)
  end.

(** Consecutive items are linked by parent hash and by number. *)
Fixpoint chained (items : list PeerData) : Prop :=
  match items with
  | a :: ((b :: _) as rest) =>
      parent_hash (header (data b)) = hash (header (data a)) /\
      number (header (data b)) = number (header (data a)) + 1 /\ chained rest
  | _ => True
  end.

(** The stream went through the filter without any error. *)
Definition passes_unpoisoned (expected : BlockNumber * BlockHash * bool)
  (items : list PeerData) : Prop :=
  continuity_scan expected items = map Ok items.

(** The rows of the cascading tables reference a canonical block. *)
Definition cascade_rows_referenced (s : Storage) : Prop :=
  forall t r, In t cascading_tables -> In r (index_rows s t) ->
              In (fst r) (map fst (canonical_blocks s)).

(** Strictly ascending block numbers. *)
Fixpoint ascending (items : list PeerData) : Prop :=
  match items with
  | a :: ((b :: _) as rest) =>
      number (header (data a)) < number (header (data b)) /\ ascending rest
  | _ => True
  end.

(** A storage whose header table lacks the parent of block 2 and whose
    canonical index is consistent with it. *)
Definition broken_parent_storage : Storage := stored [chain_header 0; chain_header 2].

(** A stand-in for the hash primitives, to evaluate the hash functions on
    concrete transactions. *)
Definition STARK_PRIME : Z := 2 ^ 251 + 17 * 2 ^ 192 + 1.
Definition standin_crypto : TransactionHash.Crypto :=
  {| TransactionHash.pedersen_hash := fun a b => (3 * a + 7 * b + 1) mod STARK_PRIME;
     TransactionHash.poseidon_hash_many :=
       fun xs => fold_left (fun acc x => (5 * acc + x + 2) mod STARK_PRIME) xs 0;
     TransactionHash.sn_keccak :=
       fun s => TransactionHash.felt_from_be_slice s mod 2 ^ 250 |}.

Definition sample_invoke_v0 : TransactionHash.InvokeTransactionV0 :=
  {| TransactionHash.iv0_calldata := [1; 2; 3]; TransactionHash.iv0_sender_address := 11;
     TransactionHash.iv0_entry_point_selector := 13; TransactionHash.iv0_max_fee := 17;
     TransactionHash.iv0_transaction_hash := 0 |}.

Definition sample_l1_handler (h : Felt) : TransactionHash.L1HandlerTransaction :=
  {| TransactionHash.l1h_contract_address := 11; TransactionHash.l1h_entry_point_selector := 13;
     TransactionHash.l1h_nonce := 5; TransactionHash.l1h_calldata := [1; 2];
     TransactionHash.l1h_version := 0; TransactionHash.l1h_transaction_hash := h |}.

(** Headers 0, 1, 2 and their signatures, as [persist] writes them. *)
Definition signed_storage : Storage :=
  snd (persist_all [peer_header 0; peer_header 1; peer_header 2] empty_storage).

(** The keys the schema makes unique: header numbers (primary key) and
    hashes, canonical numbers (primary key), and version ids. *)
Definition storage_keys_unique (s : Storage) : Prop :=
  NoDup (map row_number (block_headers s)) /\ NoDup (map row_hash (block_headers s)) /\
  NoDup (map fst (canonical_blocks s)) /\ NoDup (map fst (starknet_versions s)).

Module TransactionHashProps.
Import TransactionHash.

(** The transaction with its self-reported hash replaced by [h]. *)
Definition with_txn_hash (txn : Transaction) (h : Felt) : Transaction :=
  match txn with
  | Declare (Declare_V0 t) =>
      Declare (Declare_V0 {| dv01_class_hash := dv01_class_hash t; dv01_max_fee := dv01_max_fee t;
        dv01_nonce := dv01_nonce t; dv01_sender_address := dv01_sender_address t;
        dv01_transaction_hash := h |})
  | Declare (Declare_V1 t) =>
      Declare (Declare_V1 {| dv01_class_hash := dv01_class_hash t; dv01_max_fee := dv01_max_fee t;
        dv01_nonce := dv01_nonce t; dv01_sender_address := dv01_sender_address t;
        dv01_transaction_hash := h |})
  | Declare (Declare_V2 t) =>
      Declare (Declare_V2 {| dv2_class_hash := dv2_class_hash t; dv2_max_fee := dv2_max_fee t;
        dv2_nonce := dv2_nonce t; dv2_sender_address := dv2_sender_address t;
        dv2_compiled_class_hash := dv2_compiled_class_hash t; dv2_transaction_hash := h |})
  | Declare (Declare_V3 t) =>
      Declare (Declare_V3 {| dv3_class_hash := dv3_class_hash t; dv3_nonce := dv3_nonce t;
        dv3_nonce_data_availability_mode := dv3_nonce_data_availability_mode t;
        dv3_fee_data_availability_mode := dv3_fee_data_availability_mode t;
        dv3_resource_bounds := dv3_resource_bounds t; dv3_tip := dv3_tip t;
        dv3_paymaster_data := dv3_paymaster_data t; dv3_sender_address := dv3_sender_address t;
        dv3_compiled_class_hash := dv3_compiled_class_hash t;
        dv3_account_deployment_data := dv3_account_deployment_data t;
        dv3_transaction_hash := h |})
  | Deploy t =>
      Deploy {| dep_contract_address := dep_contract_address t;
        dep_constructor_calldata := dep_constructor_calldata t; dep_version := dep_version t;
        dep_transaction_hash := h |}
  | DeployAccount (DeployAccount_V0V1 t) =>
      DeployAccount (DeployAccount_V0V1 {| dav01_contract_address := dav01_contract_address t;
        dav01_max_fee := dav01_max_fee t; dav01_version := dav01_version t;
        dav01_contract_address_salt := dav01_contract_address_salt t;
        dav01_nonce := dav01_nonce t; dav01_constructor_calldata := dav01_constructor_calldata t;
        dav01_class_hash := dav01_class_hash t; dav01_transaction_hash := h |})
  | DeployAccount (DeployAccount_V3 t) =>
      DeployAccount (DeployAccount_V3 {| dav3_sender_address := dav3_sender_address t;
        dav3_nonce := dav3_nonce t;
        dav3_nonce_data_availability_mode := dav3_nonce_data_availability_mode t;
        dav3_fee_data_availability_mode := dav3_fee_data_availability_mode t;
        dav3_resource_bounds := dav3_resource_bounds t; dav3_tip := dav3_tip t;
        dav3_paymaster_data := dav3_paymaster_data t;
        dav3_contract_address_salt := dav3_contract_address_salt t;
        dav3_constructor_calldata := dav3_constructor_calldata t;
        dav3_class_hash := dav3_class_hash t; dav3_transaction_hash := h |})
  | Invoke (Invoke_V0 t) =>
      Invoke (Invoke_V0 {| iv0_calldata := iv0_calldata t; iv0_sender_address := iv0_sender_address t;
        iv0_entry_point_selector := iv0_entry_point_selector t; iv0_max_fee := iv0_max_fee t;
        iv0_transaction_hash := h |})
  | Invoke (Invoke_V1 t) =>
      Invoke (Invoke_V1 {| iv1_calldata := iv1_calldata t; iv1_sender_address := iv1_sender_address t;
        iv1_max_fee := iv1_max_fee t; iv1_nonce := iv1_nonce t; iv1_transaction_hash := h |})
  | Invoke (Invoke_V3 t) =>
      Invoke (Invoke_V3 {| iv3_nonce := iv3_nonce t;
        iv3_nonce_data_availability_mode := iv3_nonce_data_availability_mode t;
        iv3_fee_data_availability_mode := iv3_fee_data_availability_mode t;
        iv3_resource_bounds := iv3_resource_bounds t; iv3_tip := iv3_tip t;
        iv3_paymaster_data := iv3_paymaster_data t;
        iv3_account_deployment_data := iv3_account_deployment_data t;
        iv3_calldata := iv3_calldata t; iv3_sender_address := iv3_sender_address t;
        iv3_transaction_hash := h |})
  | L1Handler t =>
      L1Handler {| l1h_contract_address := l1h_contract_address t;
        l1h_entry_point_selector := l1h_entry_point_selector t; l1h_nonce := l1h_nonce t;
        l1h_calldata := l1h_calldata t; l1h_version := l1h_version t;
        l1h_transaction_hash := h |}
  end.

(** The variants whose hash has legacy fallback formulas. *)
Definition has_fallback (txn : Transaction) : bool :=
  match txn with
  | Deploy _ | Invoke (Invoke_V0 _) | L1Handler _ => true
  | _ => false
  end.

End TransactionHashProps.

(** * Theorems *)

Lemma existsb_false_in {A} (f : A -> bool) l x :
  existsb f l = false -> In x l -> f x = false.
Proof.
  intros He Hin. destruct (f x) eqn:Ef; auto.
  rewrite <- He. symmetry. apply existsb_exists. eauto.
Qed.

Lemma intern_keeps_chain_tables v s :
  canonical_blocks (snd (intern_starknet_version v s)) = canonical_blocks s /\
  block_headers (snd (intern_starknet_version v s)) = block_headers s.
Proof.
  unfold intern_starknet_version, bind, get.
  destruct (find _ _) as [[id v']|]; simpl; auto.
Qed.

Lemma on_delete_keeps_chain_tables removed s :
  canonical_blocks (on_delete_canonical removed s) = canonical_blocks s /\
  block_headers (on_delete_canonical removed s) = block_headers s.
Proof.
  split; reflexivity.
Qed.

Lemma insert_preserves_canonical_index s header :
  canonical_index_matches s -> canonical_index_matches (snd (insert_block_header header s)).
Proof.
  intros HI. unfold insert_block_header, bind at 1.
  destruct (intern_keeps_chain_tables (starknet_version header) s) as [Hc Hh].
  destruct (intern_starknet_version (starknet_version header) s) as [[vid|e] s1];
    simpl in *; [|intros p; rewrite Hc, Hh; apply HI].
  assert (HI1 : canonical_index_matches s1) by (intros p; rewrite Hc, Hh; apply HI).
  clear Hc Hh HI s.
  unfold bind, lift, try_into_sql_int, ret, fail.
  destruct (transaction_count header <=? i64_max); [|exact HI1].
  destruct (event_count header <=? i64_max); [|exact HI1].
  unfold sql_insert_header_row, sql_insert_canonical, bind, get, modify, fail.
  destruct (existsb _ (block_headers s1)) eqn:Eh; [exact HI1|].
  simpl.
  destruct (existsb (fun p => fst p =? number header) (canonical_blocks s1)) eqn:Ec.
  - exfalso. apply existsb_exists in Ec as [[n h] [Hin Heq]].
    apply Z.eqb_eq in Heq. simpl in Heq. subst n.
    apply HI1, in_map_iff in Hin as [r [Hr Hin]].
    assert (Hf := existsb_false_in _ _ r Eh Hin).
    unfold number_and_hash in Hr. inversion Hr; subst. simpl in Hf. rewrite H0, Z.eqb_refl in Hf. discriminate.
  - intros p. cbn [snd canonical_blocks block_headers set_canonical_blocks set_block_headers].
    rewrite List.map_app, !List.in_app_iff. simpl.
    rewrite (HI1 p). unfold number_and_hash at 2. simpl. tauto.
Qed.

Lemma purge_chain_tables n s :
  canonical_blocks (snd (purge_block n s))
    = filter (fun p => negb (fst p =? n)) (canonical_blocks s) /\
  block_headers (snd (purge_block n s))
    = filter (fun r => negb (row_number r =? n)) (block_headers s).
Proof.
  unfold purge_block, sql_delete_transactions_of, sql_delete_canonical, sql_delete_headers,
    sql_delete_index, bind, get, modify, ret.
  destruct (find (fun p => fst p =? n) (canonical_blocks s)) as [[m h]|]; cbn [snd];
    match goal with
    | |- context [on_delete_canonical ?r ?s0] =>
        destruct (on_delete_keeps_chain_tables r s0) as [Hc Hh]
    end; simpl in *; rewrite ?Hc, ?Hh; simpl; auto.
Qed.

Lemma purge_preserves_canonical_index s n :
  canonical_index_matches s -> canonical_index_matches (snd (purge_block n s)).
Proof.
  intros HI p. destruct (purge_chain_tables n s) as [-> ->].
  rewrite filter_In, in_map_iff. split.
  - intros [Hin Hn]. apply HI, in_map_iff in Hin as [r [Hr Hin]].
    exists r. split; auto. apply filter_In. split; auto.
    subst p. exact Hn.
  - intros [r [Hr Hin]]. apply filter_In in Hin as [Hin Hn].
    split.
    + apply HI, in_map_iff. eauto.
    + subst p. exact Hn.
Qed.

(** C9 (invariant I4): starting from a storage whose canonical index and
    header table have the same [(number, hash)] rows, inserting any header
    (whatever its outcome, including the state left by an error) and purging
    any block number keep the two row sets equal. *)
Theorem canonical_index_invariant_preserved (s : Storage) :
  canonical_index_matches s ->
  (forall header, canonical_index_matches (snd (insert_block_header header s))) /\
  (forall n, canonical_index_matches (snd (purge_block n s))).
Proof.
  intros HI. split.
  - intros header. apply insert_preserves_canonical_index, HI.
  - intros n. apply purge_preserves_canonical_index, HI.
Qed.

(** C1 (gap completeness), evaluated: with headers 0, 1, 2, 5, 6 stored and
    anchor 6, [next_gap] reports the gap [3, 5] whose head 5 is a stored
    header; on an empty store with anchor 10 it reports [1, 10], leaving the
    missing genesis out although its tail is not genesis. Both answers break
    the spec's gap-completeness statement. *)
Theorem next_gap_reports_stored_head_and_skips_genesis :
  next_gap 6 106 gap_storage
    = Some {| head := 5; head_hash := 105; tail := 3; tail_parent_hash := 102 |} /\
  header_present gap_storage 5 /\
  ~ gap_complete gap_storage 6 106 /\
  next_gap 10 999 empty_storage
    = Some {| head := 10; head_hash := 999; tail := 1; tail_parent_hash := 0 |} /\
  ~ header_present empty_storage 0 /\
  ~ gap_complete empty_storage 10 999.
Proof.
  refine (conj _ (conj _ (conj _ (conj _ (conj _ _))))).
  - vm_compute. reflexivity.
  - vm_compute. tauto.
  - unfold gap_complete. vm_compute. intros [Habs _].
    apply (Habs 5); [split; discriminate | tauto].
  - vm_compute. reflexivity.
  - vm_compute. tauto.
  - unfold gap_complete. vm_compute. intros [_ [Hp | Ht]]; [exact Hp | discriminate].
Qed.

Lemma continuity_scan_poisoned e_n e_h items :
  continuity_scan (e_n, e_h, true) items = [].
Proof. destruct items; reflexivity. Qed.

(** Once the filter emits a [Discontinuity], it emits nothing more. *)
Lemma continuity_scan_stops_after_discontinuity expected items before x after :
  continuity_scan expected items = before ++ Err (Discontinuity x) :: after ->
  after = [].
Proof.
  revert expected before.
  induction items as [|i items IH]; intros [[e_n e_h] poisoned] before Hs.
  - destruct before; discriminate.
  - simpl in Hs. destruct poisoned.
    + destruct before; discriminate.
    + destruct ((number (header (data i)) =? e_n) && (hash (header (data i)) =? e_h)).
      * destruct before as [|b before]; [discriminate|].
        inversion Hs. eapply IH. eassumption.
      * rewrite continuity_scan_poisoned in Hs.
        destruct before as [|b before]; inversion Hs; [reflexivity|].
        destruct before; discriminate.
Qed.

(** C2 (chain continuity), evaluated: [check_continuity] replaces its
    expectation by the number and hash of the header it just saw, so with
    expectation (5, 105) the stream [5; 5] passes without error although it is
    not chained, and the chained stream [5; 6] is cut with a [Discontinuity]
    at block 6. *)
Theorem check_continuity_keeps_last_header_as_expectation :
  passes_unpoisoned (5, 105, false) [peer_header 5; peer_header 5] /\
  ~ chained [peer_header 5; peer_header 5] /\
  chained [peer_header 5; peer_header 6] /\
  continuity_scan (5, 105, false) [peer_header 5; peer_header 6]
    = [Ok (peer_header 5); Err (Discontinuity (peer_header 6))].
Proof.
  refine (conj _ (conj _ (conj _ _))).
  - vm_compute. reflexivity.
  - vm_compute. intros [H _]. discriminate.
  - vm_compute. auto.
  - vm_compute. reflexivity.
Qed.

(** C10 (parent hash at read time): whichever way a header row is selected,
    the genesis row is returned with parent hash 0, and a non-genesis row
    whose predecessor number has no row in [block_headers] makes
    [block_header] fail instead of returning the row's header. *)
Theorem block_header_parent_hash_from_previous_row (s : Storage) (block : BlockId)
  (r : HeaderRow) :
  select_header block s = Some r ->
  (row_number r = 0 ->
   exists h, fst (block_header block s) = Ok (Some h) /\ parent_hash h = 0 /\
             number h = 0 /\ hash h = row_hash r) /\
  (row_number r <> 0 ->
   (forall r', In r' (block_headers s) -> row_number r' <> row_number r - 1) ->
   fst (block_header block s) = Err QueryReturnedNoRows).
Proof.
  intros Hsel. unfold block_header, bind, get. rewrite Hsel. split.
  - intros H0. rewrite H0. simpl.
    eexists. split; [reflexivity|]. simpl. auto.
  - intros Hn Hmiss. apply Z.eqb_neq in Hn. rewrite Hn. simpl.
    destruct (find (fun r' => row_number r' =? row_number r - 1) (block_headers s))
      as [p|] eqn:Ef; [|reflexivity].
    apply find_some in Ef as [Hin Heq]. apply Z.eqb_eq in Heq.
    exfalso. exact (Hmiss p Hin Heq).
Qed.

Lemma block_header_parent_hash_from_previous_row_witness :
  select_header (Number 2) broken_parent_storage = Some (header_row (chain_header 2) 1 0 0) /\
  fst (block_header (Number 2) broken_parent_storage) = Err QueryReturnedNoRows.
Proof.
  assert (Hsel : select_header (Number 2) broken_parent_storage
                 = Some (header_row (chain_header 2) 1 0 0)) by (vm_compute; reflexivity).
  split; [exact Hsel|].
  apply (proj2 (block_header_parent_hash_from_previous_row broken_parent_storage
                  (Number 2) _ Hsel)).
  - simpl. discriminate.
  - vm_compute. intros r' [H | [H | []]]; subst r'; simpl; discriminate.
Defined.

Lemma canonical_index_invariant_preserved_witness :
  canonical_index_matches (snd (insert_block_header (chain_header 3) gap_storage)) /\
  canonical_index_matches (snd (purge_block 5 gap_storage)).
Proof.
  assert (HI : canonical_index_matches gap_storage)
    by (intros p; vm_compute; tauto).
  destruct (canonical_index_invariant_preserved gap_storage HI) as [Hi Hp].
  split; [apply Hi | apply Hp].
Defined.

Lemma on_delete_index_rows removed s t :
  index_rows (on_delete_canonical removed s) t
  = if existsb (IndexTable_eqb t) cascading_tables
    then filter (fun r => negb (existsb (fun m => m =? fst r) removed)) (index_rows s t)
    else index_rows s t.
Proof. destruct t; reflexivity. Qed.

Lemma on_delete_class_hashes removed s :
  map fst (class_definitions (on_delete_canonical removed s)) = map fst (class_definitions s).
Proof.
  simpl. rewrite map_map. apply map_ext.
  intros [h [m|]]; simpl; auto. destruct (existsb _ _); reflexivity.
Qed.

Lemma removed_numbers n (canon : list (BlockNumber * BlockHash)) x :
  (x = n -> In x (map fst canon)) ->
  existsb (fun m => m =? x) (map fst (filter (fun p => fst p =? n) canon)) = (x =? n).
Proof.
  intros Hx. destruct (x =? n) eqn:E.
  - apply Z.eqb_eq in E. subst x. apply existsb_exists.
    destruct (proj1 (in_map_iff _ _ _) (Hx eq_refl)) as [p [Hp Hin]].
    exists (fst p). split; [|apply Z.eqb_eq; auto].
    apply in_map, filter_In. split; auto. apply Z.eqb_eq; auto.
  - destruct (existsb _ _) eqn:Ee; auto.
    apply existsb_exists in Ee as [m [Hm Heq]].
    apply in_map_iff in Hm as [p [Hp Hin]]. apply filter_In in Hin as [_ Hn].
    apply Z.eqb_neq in E. apply Z.eqb_eq in Heq, Hn. congruence.
Qed.

(** The state [purge_block] leaves, table by table. *)
Lemma purge_block_state n s :
  let removed := map fst (filter (fun p => fst p =? n) (canonical_blocks s)) in
  let s' := snd (purge_block n s) in
  starknet_transactions s'
    = match find (fun p => fst p =? n) (canonical_blocks s) with
      | Some (_, h) => filter (fun x => negb (block_hash x =? h)) (starknet_transactions s)
      | None => starknet_transactions s
      end /\
  (forall t, index_rows s' t
             = if existsb (IndexTable_eqb t) cascading_tables
               then index_rows (on_delete_canonical removed s) t
               else filter (fun r => negb (fst r =? n)) (index_rows s t)) /\
  class_definitions s' = class_definitions (on_delete_canonical removed s).
Proof.
  unfold purge_block, sql_delete_transactions_of, sql_delete_canonical, sql_delete_headers,
    sql_delete_index, bind, get, modify, ret.
  destruct (find (fun p => fst p =? n) (canonical_blocks s)) as [[m h]|];
    cbn [snd]; (split; [reflexivity|split; [|reflexivity]]);
    intros t; destruct t; reflexivity.
Qed.

(** C5 (purge isolation): in a store whose cascading rows reference a
    canonical block, [purge_block n] leaves no row keyed by [n] in the
    canonical index, the header table, or any block-keyed index table
    (contract roots, class-commitment leaves, contract state hashes, class
    roots, storage roots, and the tables cleared by the schema's cascades);
    it removes exactly the transactions whose block hash is the canonical hash
    at [n]; every row keyed by another block number is kept; the class
    definitions all stay (only their link to [n] is cleared). *)
Theorem purge_block_isolation (s : Storage) (n : BlockNumber) :
  cascade_rows_referenced s ->
  let s' := snd (purge_block n s) in
  canonical_blocks s' = filter (fun p => negb (fst p =? n)) (canonical_blocks s) /\
  block_headers s' = filter (fun r => negb (row_number r =? n)) (block_headers s) /\
  (forall t, index_rows s' t = filter (fun r => negb (fst r =? n)) (index_rows s t)) /\
  (forall h, find (fun p => fst p =? n) (canonical_blocks s) = Some (n, h) ->
     forall x, In x (starknet_transactions s') <->
               In x (starknet_transactions s) /\ block_hash x <> h) /\
  (find (fun p => fst p =? n) (canonical_blocks s) = None ->
     starknet_transactions s' = starknet_transactions s) /\
  map fst (class_definitions s') = map fst (class_definitions s) /\
  (forall p, In p (canonical_blocks s') -> fst p <> n) /\
  (forall r, In r (block_headers s') -> row_number r <> n) /\
  (forall t r, In r (index_rows s' t) -> fst r <> n).
Proof.
  intros Hfk s'.
  destruct (purge_chain_tables n s) as [Hc Hh].
  destruct (purge_block_state n s) as [Htx [Hix Hcd]].
  fold s' in Hc, Hh, Htx, Hix, Hcd.
  assert (Hidx : forall t, index_rows s' t
                           = filter (fun r => negb (fst r =? n)) (index_rows s t)).
  { intros t. rewrite Hix, on_delete_index_rows.
    destruct (existsb (IndexTable_eqb t) cascading_tables) eqn:Et; [|reflexivity].
    apply filter_ext_in. intros r Hr. f_equal. apply removed_numbers.
    intros _. apply (Hfk t r); auto.
    apply existsb_exists in Et as [t' [Hin Heq]]. destruct t, t'; try discriminate; exact Hin. }
  assert (Hnot : forall A (f : A -> Z) (l : list A) x,
             In x (filter (fun y => negb (f y =? n)) l) -> f x <> n).
  { intros A f l x Hin. apply filter_In in Hin as [_ Hin].
    apply negb_true_iff, Z.eqb_neq in Hin. exact Hin. }
  refine (conj Hc (conj Hh (conj Hidx (conj _ (conj _ (conj _ (conj _ (conj _ _)))))))).
  - intros h Hf x. rewrite Htx, Hf, filter_In, negb_true_iff, Z.eqb_neq. tauto.
  - intros Hf. rewrite Htx, Hf. reflexivity.
  - rewrite Hcd. apply on_delete_class_hashes.
  - intros p Hp. rewrite Hc in Hp. exact (Hnot _ fst _ _ Hp).
  - intros r Hr. rewrite Hh in Hr. exact (Hnot _ row_number _ _ Hr).
  - intros t r Hr. rewrite Hidx in Hr. exact (Hnot _ fst _ _ Hr).
Qed.

Lemma purge_block_isolation_witness :
  index_rows (snd (purge_block 2 signed_storage)) block_signatures
    = [(0, [1; 2]); (1, [1; 2])].
Proof.
  assert (Hfk : cascade_rows_referenced signed_storage).
  { intros t r Ht Hr.
    destruct Ht as [<-|[<-|[<-|[<-|[]]]]]; vm_compute in Hr;
      repeat destruct Hr as [<-|Hr]; try contradiction; vm_compute; tauto. }
  destruct (purge_block_isolation signed_storage 2 Hfk) as [_ [_ [Hidx _]]].
  rewrite Hidx. vm_compute. reflexivity.
Defined.

Lemma intern_keeps_index_rows v s :
  index_rows (snd (intern_starknet_version v s)) = index_rows s.
Proof.
  unfold intern_starknet_version, bind, get.
  destruct (find _ _) as [[id v']|]; reflexivity.
Qed.

Lemma insert_block_header_grows h s :
  incl (canonical_blocks s) (canonical_blocks (snd (insert_block_header h s))) /\
  index_rows (snd (insert_block_header h s)) = index_rows s /\
  (fst (insert_block_header h s) = Ok tt ->
   In (number h, hash h) (canonical_blocks (snd (insert_block_header h s)))).
Proof.
  unfold insert_block_header, bind.
  destruct (intern_keeps_chain_tables (starknet_version h) s) as [Hc _].
  pose proof (intern_keeps_index_rows (starknet_version h) s) as Hi.
  destruct (intern_starknet_version (starknet_version h) s) as [[vid|e] s1];
    simpl in *; [|rewrite Hc, Hi; split; [apply incl_refl|split; [reflexivity|discriminate]]].
  rewrite <- Hc, <- Hi. clear Hc Hi.
  unfold bind, lift, try_into_sql_int, ret, fail.
  destruct (transaction_count h <=? i64_max);
    [|split; [apply incl_refl|split; [reflexivity|discriminate]]].
  destruct (event_count h <=? i64_max);
    [|split; [apply incl_refl|split; [reflexivity|discriminate]]].
  unfold sql_insert_header_row, sql_insert_canonical, bind, get, modify, fail.
  destruct (existsb _ (block_headers s1));
    [split; [apply incl_refl|split; [reflexivity|discriminate]]|].
  simpl.
  destruct (existsb (fun p => fst p =? number h) (canonical_blocks s1)); simpl.
  - split; [apply incl_refl|split; [reflexivity|discriminate]].
  - split; [apply incl_appl, incl_refl|split; [reflexivity|]].
    intros _. apply in_or_app. right. left. reflexivity.
Qed.

Lemma persist_all_grows batch s :
  incl (canonical_blocks s) (canonical_blocks (snd (persist_all batch s))) /\
  incl (index_rows s block_signatures)
       (index_rows (snd (persist_all batch s)) block_signatures).
Proof.
  revert s. induction batch as [|x batch IH]; intros s; simpl.
  - split; apply incl_refl.
  - unfold bind.
    destruct (insert_block_header_grows (header (data x)) s) as [Hc [Hi _]].
    destruct (insert_block_header (header (data x)) s) as [[[]|e] s1]; simpl in *;
      [|rewrite Hi; split; [exact Hc | apply incl_refl]].
    unfold insert_signature, bind, get, modify.
    cbn [fst snd].
    match goal with |- context [persist_all batch ?s2] =>
      destruct (IH s2) as [Hc' Hi'] end.
    split.
    + eapply incl_tran; [exact Hc|]. exact Hc'.
    + eapply incl_tran; [|exact Hi']. simpl. rewrite Hi. apply incl_appl, incl_refl.
Qed.

(** After a successful run every header is in the canonical index and every
    signature in the signature table. *)
Lemma persist_all_stores batch s :
  fst (persist_all batch s) = Ok tt ->
  forall y, In y batch ->
    In (number (header (data y)), hash (header (data y)))
       (canonical_blocks (snd (persist_all batch s))) /\
    In (number (header (data y)), [fst (signature (data y)); snd (signature (data y))])
       (index_rows (snd (persist_all batch s)) block_signatures).
Proof.
  revert s. induction batch as [|x batch IH]; intros s Hok y Hy; [destruct Hy|].
  simpl in *. unfold bind in Hok |- *.
  destruct (insert_block_header_grows (header (data x)) s) as [_ [_ Hin]].
  destruct (insert_block_header (header (data x)) s) as [[[]|e] s1]; simpl in *;
    [|discriminate].
  unfold bind, insert_signature, get, modify in Hok |- *. simpl in Hok |- *.
  set (s2 := set_index_rows block_signatures
               (index_rows s1 block_signatures
                  ++ [(number (header (data x)),
                       [fst (signature (data x)); snd (signature (data x))])]) s1) in *.
  destruct Hy as [<- | Hy]; [|exact (IH s2 Hok y Hy)].
  destruct (persist_all_grows batch s2) as [Hc Hi]. split.
  - apply Hc. exact (Hin eq_refl).
  - apply Hi. simpl. apply in_or_app. right. left. reflexivity.
Qed.

Lemma last_opt_cons_cons {A} (a b : A) l : last_opt (a :: b :: l) = last_opt (b :: l).
Proof.
  unfold last_opt. change (rev (a :: b :: l)) with (rev (b :: l) ++ [a]).
  change (rev (b :: l)) with (rev l ++ [b]).
  destruct (rev l); reflexivity.
Qed.

Lemma last_opt_nonempty {A} (l : list A) : l <> [] -> exists x, last_opt l = Some x /\ In x l.
Proof.
  induction l as [|a [|b l] IH]; intros Hne; [congruence| |].
  - exists a. split; [reflexivity|left; reflexivity].
  - destruct IH as [x [Hx Hin]]; [discriminate|].
    exists x. rewrite last_opt_cons_cons. split; [exact Hx|right; exact Hin].
Qed.

Lemma ascending_last_is_highest batch x :
  ascending batch -> last_opt batch = Some x ->
  forall y, In y batch -> number (header (data y)) <= number (header (data x)).
Proof.
  induction batch as [|a [|b l] IH]; intros Hasc Hx y Hy; [destruct Hy| |].
  - inversion Hx; subst. destruct Hy as [<-|[]]. lia.
  - rewrite last_opt_cons_cons in Hx. destruct Hasc as [Hab Hasc].
    assert (Hb : number (header (data b)) <= number (header (data x)))
      by (apply IH; auto; left; reflexivity).
    destruct Hy as [<-|Hy]; [lia|]. apply IH; auto.
Qed.

(** C6 (amended): for a non-empty batch, [persist] never panics. Either every
    header and signature insert succeeds, the transaction is committed with all
    headers in the canonical index and all signatures stored, and the result
    is [Ok] of the LAST element of the batch; or an insert fails, the result is
    [DatabaseError] and the storage is left unchanged. The returned element
    is the highest-numbered one when the batch is in ascending block order. *)
Theorem persist_commits_batch_and_returns_last (batch : list PeerData) (storage : Storage) :
  batch <> [] ->
  exists last,
    last_opt batch = Some last /\ In last batch /\
    ((persist batch storage = Returns (Ok last, snd (persist_all batch storage)) /\
      forall y, In y batch ->
        In (number (header (data y)), hash (header (data y)))
           (canonical_blocks (snd (persist_all batch storage))) /\
        In (number (header (data y)), [fst (signature (data y)); snd (signature (data y))])
           (index_rows (snd (persist_all batch storage)) block_signatures))
     \/ (exists e, persist batch storage = Returns (Err (DatabaseError e), storage))) /\
    (ascending batch ->
     forall y, In y batch -> number (header (data y)) <= number (header (data last))).
Proof.
  intros Hne. destruct (last_opt_nonempty batch Hne) as [x [Hx Hin]].
  exists x. refine (conj Hx (conj Hin (conj _ _))).
  - pose proof (persist_all_stores batch storage) as Hst.
    unfold persist. destruct (persist_all batch storage) as [[u|e] s'].
    + left. destruct u. rewrite Hx. split; [reflexivity|]. exact (Hst eq_refl).
    + right. exists e. reflexivity.
  - intros Hasc. exact (ascending_last_is_highest batch x Hasc Hx).
Qed.

Lemma persist_commits_batch_and_returns_last_witness :
  [peer_header 0; peer_header 1] <> [] /\
  (forall y, In y [peer_header 0; peer_header 1] -> number (header (data y)) <= 1).
Proof.
  assert (Hne : [peer_header 0; peer_header 1] <> []) by discriminate.
  split; [exact Hne|].
  destruct (persist_commits_batch_and_returns_last _ empty_storage Hne)
    as [last [Hl [_ [_ Hasc]]]].
  vm_compute in Hl. injection Hl as <-.
  intros y Hy. exact (Hasc (conj eq_refl I) y Hy).
Defined.

(** Counterexample to C6: for the batch [1; 0] (not in ascending order)
    [persist] returns block 0, the last element, not block 1, the
    highest-numbered one. *)
Lemma persist_returns_last_not_highest :
  persist [peer_header 1; peer_header 0] empty_storage
    = Returns (Ok (peer_header 0),
               snd (persist_all [peer_header 1; peer_header 0] empty_storage)) /\
  number (header (data (peer_header 0))) < number (header (data (peer_header 1))).
Proof. split; reflexivity. Qed.

(** C4 (amended): the source [verify] panics on every header, because
    [BlockHeader::verify_hash] is [todo!()] and the panic of the blocking
    task is turned into a panic by [expect]. Over capabilities
    [verify_signature]/[verify_hash] where the hash check returns a verdict,
    [verify_with] returns exactly one of [Ok], [BadSignature] or [BadBlockHash]
    (signature checked first) and never panics; accepting capabilities yield
    [Ok]. *)
Theorem verify_total_with_returning_capabilities
    (sig : SignedBlockHeader -> bool) (hsh : BlockHeader -> Outcome bool) (pd : PeerData) :
  verify pd = Panics /\
  ((exists b, hsh (header (data pd)) = Returns b) ->
   (verify_with sig hsh pd = Returns (Ok pd) /\
      sig (data pd) = true /\ hsh (header (data pd)) = Returns true)
   \/ (verify_with sig hsh pd = Returns (Err (BadSignature pd)) /\ sig (data pd) = false)
   \/ (verify_with sig hsh pd = Returns (Err (BadBlockHash pd)) /\
         sig (data pd) = true /\ hsh (header (data pd)) = Returns false)).
Proof.
  split; [reflexivity|].
  intros [b Hb]. unfold verify_with.
  destruct (sig (data pd)) eqn:Hs; simpl.
  - rewrite Hb. destruct b.
    + left. auto.
    + right. right. auto.
  - right. left. auto.
Qed.

Lemma verify_total_with_returning_capabilities_witness :
  verify_with (fun _ => true) (fun _ => Returns true) (peer_header 0)
    = Returns (Ok (peer_header 0)).
Proof.
  destruct (verify_total_with_returning_capabilities
              (fun _ => true) (fun _ => Returns true) (peer_header 0)) as [_ H].
  destruct (H (ex_intro _ true eq_refl)) as [[Hok _]|[[_ Hf]|[_ [_ Hf]]]].
  - exact Hok.
  - cbv beta in Hf. discriminate Hf.
  - cbv beta in Hf. discriminate Hf.
Defined.

(** Counterexample to C4: verifying the signed header of block 0 panics
    ([verify_hash] is [todo!()]) instead of returning a verdict. *)
Lemma verify_panics_on_header :
  verify (peer_header 0) = Panics.
Proof. reflexivity. Qed.

Module TransactionHashProofs.
Import TransactionHash.

(** C7: for every transaction and chain id, [verify] returns [Match] exactly
    when the self-reported hash equals [compute_transaction_hash], the
    computation that includes the legacy fallbacks; for Deploy and Invoke v0
    that is when the modern or the legacy formula reproduces the hash. *)
Theorem verify_match_iff_computed_hash (crypto : Crypto) (txn : Transaction) (chain_id : Felt) :
  (verify crypto txn chain_id = Match <->
   txn_hash txn = compute_transaction_hash crypto txn chain_id) /\
  (forall t, txn = Deploy t ->
   (verify crypto txn chain_id = Match <->
    deploy_modern_hash crypto t chain_id = dep_transaction_hash t \/
    deploy_legacy_hash crypto t chain_id = dep_transaction_hash t)) /\
  (forall t, txn = Invoke (Invoke_V0 t) ->
   (verify crypto txn chain_id = Match <->
    invoke_v0_modern_hash crypto t chain_id = iv0_transaction_hash t \/
    invoke_v0_legacy_hash crypto t chain_id = iv0_transaction_hash t)).
Proof.
  assert (Hm : verify crypto txn chain_id = Match <->
               txn_hash txn = compute_transaction_hash crypto txn chain_id).
  { unfold verify.
    destruct (Z.eqb_spec (compute_transaction_hash crypto txn chain_id) (txn_hash txn));
      split; intros H; congruence. }
  refine (conj Hm (conj _ _)); intros t ->; rewrite Hm; simpl.
  - unfold compute_deploy_hash.
    destruct (Z.eqb_spec (deploy_modern_hash crypto t chain_id) (dep_transaction_hash t));
      split; intros H; [auto|congruence|auto|destruct H; congruence].
  - unfold compute_invoke_v0_hash.
    destruct (Z.eqb_spec (invoke_v0_modern_hash crypto t chain_id) (iv0_transaction_hash t));
      split; intros H; [auto|congruence|auto|destruct H; congruence].
Qed.

(** C8: the L1Handler hash is the first of the modern formula, the legacy
    formula with the nonce, and the legacy formula with the invoke prefix
    whose result equals the self-reported hash (the last one when none does);
    [verify] returns [Match] exactly when one of the three matches. *)
Theorem l1_handler_first_matching_formula_wins
    (crypto : Crypto) (t : L1HandlerTransaction) (chain_id : Felt) :
  (l1_handler_modern_hash crypto t chain_id = l1h_transaction_hash t ->
   compute_l1_handler_hash crypto t chain_id = l1_handler_modern_hash crypto t chain_id) /\
  (l1_handler_modern_hash crypto t chain_id <> l1h_transaction_hash t ->
   l1_handler_legacy_nonce_hash crypto t chain_id = l1h_transaction_hash t ->
   compute_l1_handler_hash crypto t chain_id
     = l1_handler_legacy_nonce_hash crypto t chain_id) /\
  (l1_handler_modern_hash crypto t chain_id <> l1h_transaction_hash t ->
   l1_handler_legacy_nonce_hash crypto t chain_id <> l1h_transaction_hash t ->
   compute_l1_handler_hash crypto t chain_id
     = l1_handler_legacy_invoke_hash crypto t chain_id) /\
  (verify crypto (L1Handler t) chain_id = Match <->
   l1_handler_modern_hash crypto t chain_id = l1h_transaction_hash t \/
   l1_handler_legacy_nonce_hash crypto t chain_id = l1h_transaction_hash t \/
   l1_handler_legacy_invoke_hash crypto t chain_id = l1h_transaction_hash t).
Proof.
  unfold compute_l1_handler_hash.
  destruct (Z.eqb_spec (l1_handler_modern_hash crypto t chain_id) (l1h_transaction_hash t))
    as [Hm|Hm];
  destruct (Z.eqb_spec (l1_handler_legacy_nonce_hash crypto t chain_id) (l1h_transaction_hash t))
    as [Hn|Hn];
  (refine (conj _ (conj _ (conj _ _))); [intros; congruence .. |]);
  unfold verify; simpl; unfold compute_l1_handler_hash;
  repeat match goal with |- context [?a =? ?b] => destruct (Z.eqb_spec a b) end;
  split; intros; try reflexivity; try discriminate; try tauto.
  (* the outer comparison was split first: reduce the fallbacks in [e] *)
  rewrite (proj2 (Z.eqb_neq _ _) Hm), (proj2 (Z.eqb_neq _ _) Hn) in e. tauto.
Qed.

Lemma l1_handler_first_matching_formula_wins_witness :
  compute_l1_handler_hash standin_crypto (sample_l1_handler 197185285519628847) 1
    = l1_handler_legacy_invoke_hash standin_crypto (sample_l1_handler 197185285519628847) 1 /\
  verify standin_crypto (L1Handler (sample_l1_handler 197185285519628847)) 1 = Match.
Proof.
  destruct (l1_handler_first_matching_formula_wins standin_crypto
              (sample_l1_handler 197185285519628847) 1) as [_ [_ [H3 H4]]].
  split.
  - apply H3; intros H; vm_compute in H; discriminate H.
  - apply (proj2 H4). right. right. vm_compute. reflexivity.
Defined.

(** C3 (amended): when no formula reproduces the self-reported hash of a
    Deploy, Invoke v0 or L1Handler transaction, [verify] returns [Mismatch h]
    with [h] the result of the LAST fallback formula tried (the legacy
    formula; for L1Handler the legacy formula with the invoke prefix), not the
    modern formula. *)
Theorem verify_mismatch_carries_last_fallback (crypto : Crypto) (chain_id : Felt) :
  (forall t : DeployTransaction,
   deploy_modern_hash crypto t chain_id <> dep_transaction_hash t ->
   deploy_legacy_hash crypto t chain_id <> dep_transaction_hash t ->
   verify crypto (Deploy t) chain_id = Mismatch (deploy_legacy_hash crypto t chain_id)) /\
  (forall t : InvokeTransactionV0,
   invoke_v0_modern_hash crypto t chain_id <> iv0_transaction_hash t ->
   invoke_v0_legacy_hash crypto t chain_id <> iv0_transaction_hash t ->
   verify crypto (Invoke (Invoke_V0 t)) chain_id
     = Mismatch (invoke_v0_legacy_hash crypto t chain_id)) /\
  (forall t : L1HandlerTransaction,
   l1_handler_modern_hash crypto t chain_id <> l1h_transaction_hash t ->
   l1_handler_legacy_nonce_hash crypto t chain_id <> l1h_transaction_hash t ->
   l1_handler_legacy_invoke_hash crypto t chain_id <> l1h_transaction_hash t ->
   verify crypto (L1Handler t) chain_id
     = Mismatch (l1_handler_legacy_invoke_hash crypto t chain_id)).
Proof.
  refine (conj _ (conj _ _)); intros t; intros; unfold verify; simpl.
  - unfold compute_deploy_hash.
    rewrite (proj2 (Z.eqb_neq _ _) H), (proj2 (Z.eqb_neq _ _) H0). reflexivity.
  - unfold compute_invoke_v0_hash.
    rewrite (proj2 (Z.eqb_neq _ _) H), (proj2 (Z.eqb_neq _ _) H0). reflexivity.
  - unfold compute_l1_handler_hash.
    rewrite (proj2 (Z.eqb_neq _ _) H), (proj2 (Z.eqb_neq _ _) H0),
            (proj2 (Z.eqb_neq _ _) H1). reflexivity.
Qed.

Lemma verify_mismatch_carries_last_fallback_witness :
  verify standin_crypto (Invoke (Invoke_V0 sample_invoke_v0)) 1
    = Mismatch (invoke_v0_legacy_hash standin_crypto sample_invoke_v0 1).
Proof.
  destruct (verify_mismatch_carries_last_fallback standin_crypto 1) as [_ [H _]].
  apply H; intros E; vm_compute in E; discriminate E.
Defined.

(** Counterexample to C3: for the Invoke v0 transaction [sample_invoke_v0]
    (self-reported hash 0) neither formula reproduces the hash, and [verify]
    returns the legacy result, which differs from the modern one. *)
Lemma verify_mismatch_not_modern :
  invoke_v0_modern_hash standin_crypto sample_invoke_v0 1
    <> iv0_transaction_hash sample_invoke_v0 /\
  invoke_v0_legacy_hash standin_crypto sample_invoke_v0 1
    <> iv0_transaction_hash sample_invoke_v0 /\
  verify standin_crypto (Invoke (Invoke_V0 sample_invoke_v0)) 1
    <> Mismatch (invoke_v0_modern_hash standin_crypto sample_invoke_v0 1).
Proof.
  refine (conj _ (conj _ _)); intros E; vm_compute in E; discriminate E.
Qed.

End TransactionHashProofs.

(** ** Further properties of the code *)

Module TransactionHashExtras.
Import TransactionHash TransactionHashProps.

Lemma txn_hash_with_txn_hash txn x : txn_hash (with_txn_hash txn x) = x.
Proof. destruct txn as [[t|t|t|t]|t|[t|t]|[t|t|t]|t]; reflexivity. Qed.

Lemma compute_with_txn_hash_single crypto txn chain_id x :
  has_fallback txn = false ->
  compute_transaction_hash crypto (with_txn_hash txn x) chain_id
    = compute_transaction_hash crypto txn chain_id.
Proof. destruct txn as [[t|t|t|t]|t|[t|t]|[t|t|t]|t]; intros Hf; try discriminate; reflexivity. Qed.

(** The hash of a Declare, DeployAccount, Invoke v1 or Invoke v3
    transaction does not depend on its self-reported hash; only the variants
    with legacy fallbacks read it, to pick the formula. *)
Theorem compute_ignores_reported_hash (crypto : Crypto) (txn : Transaction) (chain_id x : Felt) :
  has_fallback txn = false ->
  compute_transaction_hash crypto (with_txn_hash txn x) chain_id
    = compute_transaction_hash crypto txn chain_id.
Proof. exact (compute_with_txn_hash_single crypto txn chain_id x). Qed.

Lemma compute_ignores_reported_hash_witness :
  has_fallback (Invoke (Invoke_V1 {| iv1_calldata := []; iv1_sender_address := 1;
    iv1_max_fee := 2; iv1_nonce := 3; iv1_transaction_hash := 4 |})) = false /\
  compute_transaction_hash standin_crypto
    (with_txn_hash (Invoke (Invoke_V1 {| iv1_calldata := []; iv1_sender_address := 1;
       iv1_max_fee := 2; iv1_nonce := 3; iv1_transaction_hash := 4 |})) 9) 1
  = compute_transaction_hash standin_crypto (Invoke (Invoke_V1 {| iv1_calldata := [];
      iv1_sender_address := 1; iv1_max_fee := 2; iv1_nonce := 3;
      iv1_transaction_hash := 4 |})) 1.
Proof. split; [reflexivity|]. apply compute_ignores_reported_hash. reflexivity. Defined.

(** A transaction whose self-reported hash is replaced by the hash
    [compute_transaction_hash] gives it verifies as [Match], for every variant
    and chain id, including the variants whose formula depends on the hash
    field. *)
Theorem verify_stamped_transaction (crypto : Crypto) (txn : Transaction) (chain_id : Felt) :
  verify crypto (with_txn_hash txn (compute_transaction_hash crypto txn chain_id)) chain_id
    = Match.
Proof.
  unfold verify. rewrite txn_hash_with_txn_hash.
  destruct (has_fallback txn) eqn:Hf.
  2: { rewrite (compute_with_txn_hash_single crypto txn chain_id _ Hf), Z.eqb_refl.
       reflexivity. }
  destruct txn as [[t|t|t|t]|t|[t|t]|[t|t|t]|t]; try discriminate; clear Hf.
  - change (compute_transaction_hash crypto (Deploy t) chain_id)
      with (compute_deploy_hash crypto t chain_id).
    set (x := compute_deploy_hash crypto t chain_id).
    change (compute_transaction_hash crypto (with_txn_hash (Deploy t) x) chain_id)
      with (if deploy_modern_hash crypto t chain_id =? x
            then deploy_modern_hash crypto t chain_id
            else deploy_legacy_hash crypto t chain_id).
    subst x. unfold compute_deploy_hash.
    destruct (Z.eqb_spec (deploy_modern_hash crypto t chain_id) (dep_transaction_hash t)).
    + rewrite !Z.eqb_refl. reflexivity.
    + destruct (Z.eqb_spec (deploy_modern_hash crypto t chain_id)
                           (deploy_legacy_hash crypto t chain_id)) as [E|E].
      * rewrite E, Z.eqb_refl. reflexivity.
      * rewrite Z.eqb_refl. reflexivity.
  - change (compute_transaction_hash crypto (Invoke (Invoke_V0 t)) chain_id)
      with (compute_invoke_v0_hash crypto t chain_id).
    set (x := compute_invoke_v0_hash crypto t chain_id).
    change (compute_transaction_hash crypto (with_txn_hash (Invoke (Invoke_V0 t)) x) chain_id)
      with (if invoke_v0_modern_hash crypto t chain_id =? x
            then invoke_v0_modern_hash crypto t chain_id
            else invoke_v0_legacy_hash crypto t chain_id).
    subst x. unfold compute_invoke_v0_hash.
    destruct (Z.eqb_spec (invoke_v0_modern_hash crypto t chain_id) (iv0_transaction_hash t)).
    + rewrite !Z.eqb_refl. reflexivity.
    + destruct (Z.eqb_spec (invoke_v0_modern_hash crypto t chain_id)
                           (invoke_v0_legacy_hash crypto t chain_id)) as [E|E].
      * rewrite E, Z.eqb_refl. reflexivity.
      * rewrite Z.eqb_refl. reflexivity.
  - change (compute_transaction_hash crypto (L1Handler t) chain_id)
      with (compute_l1_handler_hash crypto t chain_id).
    set (x := compute_l1_handler_hash crypto t chain_id).
    change (compute_transaction_hash crypto (with_txn_hash (L1Handler t) x) chain_id)
      with (if l1_handler_modern_hash crypto t chain_id =? x
            then l1_handler_modern_hash crypto t chain_id
            else if l1_handler_legacy_nonce_hash crypto t chain_id =? x
                 then l1_handler_legacy_nonce_hash crypto t chain_id
                 else l1_handler_legacy_invoke_hash crypto t chain_id).
    subst x. unfold compute_l1_handler_hash.
    set (m := l1_handler_modern_hash crypto t chain_id).
    set (n := l1_handler_legacy_nonce_hash crypto t chain_id).
    set (i := l1_handler_legacy_invoke_hash crypto t chain_id).
    destruct (Z.eqb_spec m (l1h_transaction_hash t));
      [rewrite !Z.eqb_refl; reflexivity|].
    destruct (Z.eqb_spec n (l1h_transaction_hash t)).
    + destruct (Z.eqb_spec m n) as [E|E]; [rewrite E|]; rewrite !Z.eqb_refl; reflexivity.
    + destruct (Z.eqb_spec m i) as [E|E]; [rewrite E, Z.eqb_refl; reflexivity|].
      destruct (Z.eqb_spec n i) as [E'|E']; [rewrite E'|]; rewrite !Z.eqb_refl; reflexivity.
Qed.

(** [flattened_bounds] packs the resource name, the [u64] max amount and the
    [u128] max price per unit into disjoint bit ranges: each can be read back
    from the felt. *)
Theorem flattened_bounds_decode (name : string) (b : ResourceBound) :
  0 <= max_amount b < 2 ^ 64 -> 0 <= max_price_per_unit b < 2 ^ 128 ->
  Z.land (flattened_bounds name b) (Z.ones 128) = max_price_per_unit b /\
  Z.land (Z.shiftr (flattened_bounds name b) 128) (Z.ones 64) = max_amount b /\
  Z.shiftr (flattened_bounds name b) 192 = felt_from_be_slice name.
Proof.
  intros [Ha0 Ha] [Hp0 Hp]. unfold flattened_bounds.
  set (nm := felt_from_be_slice name). set (a := max_amount b). set (p := max_price_per_unit b).
  assert (Hhi : forall x k i, 0 <= x < 2 ^ k -> 0 <= k <= i -> Z.testbit x i = false).
  { intros x k i Hx Hk. rewrite <- (Z.mod_small x (2 ^ k)) by lia.
    apply Z.mod_pow2_bits_high. lia. }
  refine (conj _ (conj _ _)); apply Z.bits_inj'; intros i Hi.
  - rewrite Z.land_spec, !Z.lor_spec, Z.testbit_ones_nonneg by lia.
    rewrite !Z.shiftl_spec by lia.
    destruct (Z.ltb_spec i 128).
    + rewrite (Z.testbit_neg_r nm (i - 192)), (Z.testbit_neg_r a (i - 128)) by lia.
      rewrite andb_true_r. reflexivity.
    + rewrite andb_false_r. symmetry. apply (Hhi p 128); lia.
  - rewrite Z.land_spec, Z.shiftr_spec, !Z.lor_spec, Z.testbit_ones_nonneg by lia.
    rewrite !Z.shiftl_spec by lia.
    replace (i + 128 - 128) with i by lia.
    destruct (Z.ltb_spec i 64).
    + rewrite (Z.testbit_neg_r nm (i + 128 - 192)) by lia.
      rewrite (Hhi p 128 (i + 128)) by lia.
      rewrite andb_true_r, orb_false_r. reflexivity.
    + rewrite andb_false_r. symmetry. apply (Hhi a 64); lia.
  - rewrite Z.shiftr_spec, !Z.lor_spec by lia. rewrite !Z.shiftl_spec by lia.
    replace (i + 192 - 192) with i by lia.
    rewrite (Hhi a 64 (i + 192 - 128)) by lia.
    rewrite (Hhi p 128 (i + 192)) by lia.
    rewrite !orb_false_r. reflexivity.
Qed.

Lemma flattened_bounds_decode_witness :
  Z.shiftr (flattened_bounds "L1_GAS" {| max_amount := 5; max_price_per_unit := 7 |}) 192
    = felt_from_be_slice "L1_GAS".
Proof.
  apply (flattened_bounds_decode "L1_GAS" {| max_amount := 5; max_price_per_unit := 7 |});
    simpl; lia.
Defined.

End TransactionHashExtras.

Lemma filter_nil_forall {A} (f : A -> bool) l :
  filter f l = [] -> forall x, In x l -> f x = false.
Proof.
  intros H x Hx. destruct (f x) eqn:E; [|reflexivity].
  assert (In x (filter f l)) by (apply filter_In; auto). rewrite H in *. contradiction.
Qed.

Lemma filter_all_true {A} (f : A -> bool) l :
  (forall x, In x l -> f x = true) -> filter f l = l.
Proof.
  induction l as [|a l IH]; intros H; simpl; [reflexivity|].
  rewrite (H a (or_introl eq_refl)), IH; [reflexivity|]. intros x Hx. apply H. right. exact Hx.
Qed.

Lemma fold_max_some {A} (key : A -> Z) (l : list A) (acc : option A) m :
  fold_left (fun acc r => match acc with
                          | None => Some r
                          | Some b => if key b <? key r then Some r else Some b
                          end) l acc = Some m ->
  (acc = Some m \/ In m l) /\ (forall r, In r l -> key r <= key m) /\
  (forall b, acc = Some b -> key b <= key m).
Proof.
  revert acc. induction l as [|a l IH]; intros acc H; simpl in H.
  - subst acc. split; [left; reflexivity|split; [intros r []|intros b Hb; inversion Hb; lia]].
  - destruct (IH _ H) as [Hin [Hall Hacc]]. split; [|split].
    + destruct Hin as [Hin|Hin]; [|right; right; exact Hin].
      destruct acc as [b|].
      * destruct (key b <? key a); inversion Hin; subst;
          [right; left; reflexivity | left; reflexivity].
      * inversion Hin; subst. right; left; reflexivity.
    + intros r [<-|Hr]; [|apply Hall; exact Hr].
      destruct acc as [b|]; [|apply Hacc; reflexivity].
      destruct (Z.ltb_spec (key b) (key a)); [apply Hacc; reflexivity|].
      specialize (Hacc b eq_refl). lia.
    + intros b ->. destruct (Z.ltb_spec (key b) (key a)).
      * specialize (Hacc a eq_refl). lia.
      * apply Hacc; reflexivity.
Qed.

Lemma fold_max_none {A} (key : A -> Z) (l : list A) (acc : option A) :
  fold_left (fun acc r => match acc with
                          | None => Some r
                          | Some b => if key b <? key r then Some r else Some b
                          end) l acc = None <-> acc = None /\ l = [].
Proof.
  revert acc. induction l as [|a l IH]; intros acc; simpl.
  - tauto.
  - rewrite IH. split; [intros [H _]; destruct acc; [destruct (key _ <? key a)|]; discriminate|].
    intros [_ H]; discriminate.
Qed.

Lemma max_by_number_some rows r :
  max_by_number rows = Some r ->
  In r rows /\ forall r', In r' rows -> row_number r' <= row_number r.
Proof.
  intros H. destruct (fold_max_some row_number rows None r H) as [[E|Hin] [Hall _]];
    [discriminate|]. auto.
Qed.

Lemma max_by_number_none rows : max_by_number rows = None <-> rows = [].
Proof. unfold max_by_number. rewrite (fold_max_none row_number). tauto. Qed.

Lemma max_canonical_some rows p :
  max_canonical rows = Some p -> In p rows /\ forall q, In q rows -> fst q <= fst p.
Proof.
  intros H. destruct (fold_max_some fst rows None p H) as [[E|Hin] [Hall _]];
    [discriminate|]. auto.
Qed.

Lemma max_canonical_none rows : max_canonical rows = None <-> rows = [].
Proof. unfold max_canonical. rewrite (fold_max_none fst). tauto. Qed.

Lemma in_number_and_hash r rows :
  In r rows -> In (row_number r, row_hash r) (map number_and_hash rows).
Proof. intros H. apply (in_map number_and_hash) in H. exact H. Qed.

Lemma next_ancestor_spec (target : BlockNumber) (s : Storage) :
  (forall n h, next_ancestor target s = Some (n, h) ->
     In (n, h) (map number_and_hash (block_headers s)) /\ n < target /\
     forall r, In r (block_headers s) -> row_number r < target -> row_number r <= n) /\
  (next_ancestor target s = None <->
   forall r, In r (block_headers s) -> target <= row_number r).
Proof.
  unfold next_ancestor.
  destruct (max_by_number (filter (fun r => row_number r <? target) (block_headers s)))
    as [r|] eqn:E; simpl.
  - apply max_by_number_some in E as [Hin Hmax].
    apply filter_In in Hin as [Hin Hlt]. apply Z.ltb_lt in Hlt.
    split.
    + intros n h Hnh. inversion Hnh; subst n h. split; [apply in_number_and_hash; exact Hin|].
      split; [exact Hlt|]. intros r' Hr' Hlt'. apply Hmax, filter_In. split; [exact Hr'|].
      apply Z.ltb_lt. exact Hlt'.
    + split; [discriminate|]. intros H. specialize (H r Hin). lia.
  - split; [discriminate|]. split; [intros _|reflexivity].
    apply max_by_number_none in E. intros r Hr.
    pose proof (filter_nil_forall _ _ E r Hr) as F. apply Z.ltb_ge in F. exact F.
Qed.

Lemma next_ancestor_without_parent_spec (target : BlockNumber) (s : Storage) :
  (forall n h, next_ancestor_without_parent target s = Some (n, h) ->
     In (n, h) (map number_and_hash (block_headers s)) /\ n <= target /\
     (forall r, In r (block_headers s) -> row_number r <> n - 1) /\
     forall r, In r (block_headers s) -> row_number r <= target ->
       (forall r2, In r2 (block_headers s) -> row_number r2 <> row_number r - 1) ->
       row_number r <= n) /\
  (next_ancestor_without_parent target s = None <->
   forall r, In r (block_headers s) -> row_number r <= target ->
     exists r2, In r2 (block_headers s) /\ row_number r2 = row_number r - 1).
Proof.
  assert (Hf : forall r, In r (block_headers s) ->
            ((row_number r <=? target)
             && negb (existsb (fun r2 => row_number r - 1 =? row_number r2) (block_headers s))
             = true <->
             row_number r <= target /\
             forall r2, In r2 (block_headers s) -> row_number r2 <> row_number r - 1)).
  { intros r _. rewrite andb_true_iff, Z.leb_le, negb_true_iff. split.
    - intros [Hl He]. split; [exact Hl|]. intros r2 Hr2 Heq.
      pose proof (existsb_false_in _ _ r2 He Hr2) as F. simpl in F.
      rewrite Heq, Z.eqb_refl in F. discriminate.
    - intros [Hl Hn]. split; [exact Hl|]. apply not_true_is_false. intros He.
      apply existsb_exists in He as [r2 [Hr2 Heq]]. apply Z.eqb_eq in Heq.
      apply (Hn r2 Hr2). lia. }
  unfold next_ancestor_without_parent.
  destruct (max_by_number (filter _ (block_headers s))) as [r|] eqn:E; simpl.
  - apply max_by_number_some in E as [Hin Hmax].
    apply filter_In in Hin as [Hin Hsel]. apply (Hf r Hin) in Hsel as [Hle Hnp].
    split.
    + intros n h Hnh. inversion Hnh; subst n h.
      split; [apply in_number_and_hash; exact Hin|]. split; [exact Hle|]. split; [exact Hnp|].
      intros r' Hr' Hle' Hnp'. apply Hmax, filter_In. split; [exact Hr'|].
      apply (Hf r' Hr'). auto.
    + split; [discriminate|]. intros H. destruct (H r Hin Hle) as [r2 [Hr2 Heq]].
      exfalso. exact (Hnp r2 Hr2 Heq).
  - split; [discriminate|]. split; [intros _|reflexivity].
    apply max_by_number_none in E. intros r Hr Hle.
    pose proof (filter_nil_forall _ _ E r Hr) as F. simpl in F.
    apply Z.leb_le in Hle. rewrite Hle in F. simpl in F. apply negb_false_iff in F.
    apply existsb_exists in F as [r2 [Hr2 Heq]]. apply Z.eqb_eq in Heq.
    exists r2. split; [exact Hr2|lia].
Qed.

(** [next_ancestor target] is the highest stored header strictly below
    [target]; it is [None] exactly when no stored header is below [target]. *)
Theorem next_ancestor_highest_below (target : BlockNumber) (s : Storage) :
  (forall n h, next_ancestor target s = Some (n, h) ->
     In (n, h) (map number_and_hash (block_headers s)) /\ n < target /\
     forall r, In r (block_headers s) -> row_number r < target -> row_number r <= n) /\
  (next_ancestor target s = None <->
   forall r, In r (block_headers s) -> target <= row_number r).
Proof. exact (next_ancestor_spec target s). Qed.

Lemma next_ancestor_highest_below_witness :
  next_ancestor 5 gap_storage = Some (2, 102) /\
  In (2, 102) (map number_and_hash (block_headers gap_storage)).
Proof.
  assert (E : next_ancestor 5 gap_storage = Some (2, 102)) by (vm_compute; reflexivity).
  split; [exact E|]. exact (proj1 (proj1 (next_ancestor_highest_below 5 gap_storage) 2 102 E)).
Defined.

(** [next_ancestor_without_parent target] is the highest stored header at
    or below [target] whose parent number has no stored header; it is [None]
    exactly when every stored header at or below [target] has one. *)
Theorem next_ancestor_without_parent_highest (target : BlockNumber) (s : Storage) :
  (forall n h, next_ancestor_without_parent target s = Some (n, h) ->
     In (n, h) (map number_and_hash (block_headers s)) /\ n <= target /\
     (forall r, In r (block_headers s) -> row_number r <> n - 1) /\
     forall r, In r (block_headers s) -> row_number r <= target ->
       (forall r2, In r2 (block_headers s) -> row_number r2 <> row_number r - 1) ->
       row_number r <= n) /\
  (next_ancestor_without_parent target s = None <->
   forall r, In r (block_headers s) -> row_number r <= target ->
     exists r2, In r2 (block_headers s) /\ row_number r2 = row_number r - 1).
Proof. exact (next_ancestor_without_parent_spec target s). Qed.

Lemma next_ancestor_without_parent_highest_witness :
  next_ancestor_without_parent 6 gap_storage = Some (5, 105) /\ 5 <= 6.
Proof.
  assert (E : next_ancestor_without_parent 6 gap_storage = Some (5, 105))
    by (vm_compute; reflexivity).
  split; [exact E|].
  exact (proj1 (proj2 (proj1 (next_ancestor_without_parent_highest 6 gap_storage) 5 105 E))).
Defined.

(** [next_gap head head_hash]: it finds no gap exactly when [head] is stored
    and every stored header at or below it has its parent stored. A gap it
    returns starts at [head] itself when [head] is not stored, otherwise at
    the highest stored header at or below [head] whose parent is missing. No
    header is stored in [tail, head); [tail - 1] is the stored header whose
    hash is [tail_parent_hash], or, when nothing is stored below the gap's
    head, [tail] is 1 and [tail_parent_hash] is 0. *)
Theorem next_gap_bounds (head0 : BlockNumber) (hh : BlockHash) (s : Storage) :
  (next_gap head0 hh s = None <->
   block_exists (Number head0) s = true /\
   forall r, In r (block_headers s) -> row_number r <= head0 ->
     exists r2, In r2 (block_headers s) /\ row_number r2 = row_number r - 1) /\
  (forall g, next_gap head0 hh s = Some g ->
   (block_exists (Number head0) s = false -> head g = head0 /\ head_hash g = hh) /\
   (block_exists (Number head0) s = true ->
      In (head g, head_hash g) (map number_and_hash (block_headers s)) /\ head g <= head0 /\
      forall r, In r (block_headers s) -> row_number r <> head g - 1) /\
   (forall r, In r (block_headers s) -> ~ (tail g <= row_number r < head g)) /\
   (In (tail g - 1, tail_parent_hash g) (map number_and_hash (block_headers s)) \/
    (tail g = 1 /\ tail_parent_hash g = 0 /\
     forall r, In r (block_headers s) -> head g <= row_number r))).
Proof.
  destruct (next_ancestor_without_parent_spec head0 s) as [Hwp_some Hwp_none].
  assert (Htail : forall gh ghh g,
            g = {| head := gh; head_hash := ghh;
                   tail := fst (match next_ancestor gh s with Some t => t | None => (0, 0) end) + 1;
                   tail_parent_hash := snd (match next_ancestor gh s with
                                            | Some t => t | None => (0, 0) end) |} ->
            (forall r, In r (block_headers s) -> ~ (tail g <= row_number r < head g)) /\
            (In (tail g - 1, tail_parent_hash g) (map number_and_hash (block_headers s)) \/
             (tail g = 1 /\ tail_parent_hash g = 0 /\
              forall r, In r (block_headers s) -> head g <= row_number r))).
  { intros gh ghh g ->. destruct (next_ancestor_spec gh s) as [Hna_some Hna_none].
    destruct (next_ancestor gh s) as [[tn th]|] eqn:Et; simpl.
    - destruct (Hna_some tn th eq_refl) as [Hin [Hlt Hmax]]. split.
      + intros r Hr [H1 H2]. specialize (Hmax r Hr H2). lia.
      + left. replace (tn + 1 - 1) with tn by lia. exact Hin.
    - pose proof (proj1 Hna_none eq_refl) as Hall. split.
      + intros r Hr [_ H2]. specialize (Hall r Hr). lia.
      + right. auto. }
  unfold next_gap. destruct (block_exists (Number head0) s) eqn:Ex.
  - destruct (next_ancestor_without_parent head0 s) as [[gh ghh]|] eqn:Eg.
    + cbv beta iota zeta.
      split; [split; [intros Hc; discriminate Hc|intros [_ H]; apply Hwp_none in H;
                                       discriminate H]|].
      intros g Hg. injection Hg as Hg. symmetry in Hg.
      destruct (Htail gh ghh g Hg) as [Habs Hpar]. subst g.
      split; [discriminate|]. split; [|split; [exact Habs|exact Hpar]].
      intros _. destruct (Hwp_some gh ghh eq_refl) as [Hin [Hle [Hnp _]]]. auto.
    + cbv beta iota zeta.
      split; [split; [intros _; split; [reflexivity|exact (proj1 Hwp_none eq_refl)]|
                      intros _; reflexivity]|].
      intros g Hg. discriminate Hg.
  - cbv beta iota zeta.
    split; [split; [intros Hc; discriminate Hc|intros [H _]; discriminate H]|].
    intros g Hg. injection Hg as Hg. symmetry in Hg.
    destruct (Htail head0 hh g Hg) as [Habs Hpar]. subst g.
    split; [intros _; split; reflexivity|]. split; [discriminate|]. split; [exact Habs|exact Hpar].
Qed.

Lemma next_gap_bounds_witness :
  next_gap 0 7 empty_storage
    = Some {| head := 0; head_hash := 7; tail := 1; tail_parent_hash := 0 |} /\
  tail {| head := 0; head_hash := 7; tail := 1; tail_parent_hash := 0 |} = 1.
Proof.
  assert (E : next_gap 0 7 empty_storage
              = Some {| head := 0; head_hash := 7; tail := 1; tail_parent_hash := 0 |})
    by reflexivity.
  split; [exact E|].
  destruct (proj2 (next_gap_bounds 0 7 empty_storage) _ E) as [_ [_ [_ [Hp|[Ht _]]]]].
  - destruct Hp.
  - exact Ht.
Defined.

Lemma block_id_spec (b : BlockId) (s : Storage) :
  (block_exists b s = true <-> exists p, block_id b s = Some p) /\
  (forall p, block_id b s = Some p ->
     In p (canonical_blocks s) /\
     match b with
     | Latest => forall q, In q (canonical_blocks s) -> fst q <= fst p
     | Number n => fst p = n
     | Hash h => snd p = h
     end).
Proof.
  destruct b as [|n|h]; simpl.
  - destruct (max_canonical (canonical_blocks s)) as [q|] eqn:E.
    + apply max_canonical_some in E as [Hin Hmax].
      split.
      * destruct (canonical_blocks s); [destruct Hin|]. split; [intros _; eauto|reflexivity].
      * intros p Hp. inversion Hp; subst. auto.
    + apply max_canonical_none in E. rewrite E. simpl.
      split; [split; [discriminate|intros [p Hp]; discriminate]|intros p Hp; discriminate].
  - destruct (find (fun p => fst p =? n) (canonical_blocks s)) as [q|] eqn:E; simpl.
    + apply find_some in E as [Hin Heq]. apply Z.eqb_eq in Heq. split.
      * split; [intros _; eexists; reflexivity|intros _].
        apply existsb_exists. exists q. split; [exact Hin|apply Z.eqb_eq; exact Heq].
      * intros p Hp. inversion Hp; subst. destruct q as [qn qh]; simpl in *; subst.
        split; [exact Hin|reflexivity].
    + split; [split; [intros Hex; exfalso|intros [p Hp]; discriminate]|intros p Hp; discriminate].
      apply existsb_exists in Hex as [q [Hq Heq]].
      rewrite (find_none _ _ E q Hq) in Heq. discriminate.
  - destruct (find (fun p => snd p =? h) (canonical_blocks s)) as [q|] eqn:E; simpl.
    + apply find_some in E as [Hin Heq]. apply Z.eqb_eq in Heq. split.
      * split; [intros _; eexists; reflexivity|intros _].
        apply existsb_exists. exists q. split; [exact Hin|apply Z.eqb_eq; exact Heq].
      * intros p Hp. inversion Hp; subst. destruct q as [qn qh]; simpl in *; subst.
        split; [exact Hin|reflexivity].
    + split; [split; [intros Hex; exfalso|intros [p Hp]; discriminate]|intros p Hp; discriminate].
      apply existsb_exists in Hex as [q [Hq Heq]].
      rewrite (find_none _ _ E q Hq) in Heq. discriminate.
Qed.

(** [block_exists] and [block_id] agree: a block exists exactly when
    [block_id] finds it. The pair [block_id] returns is a row of the canonical
    index: the highest-numbered one for [Latest], one with the given number
    or hash otherwise. *)
Theorem block_id_agrees_with_block_exists (b : BlockId) (s : Storage) :
  (block_exists b s = true <-> exists p, block_id b s = Some p) /\
  (forall p, block_id b s = Some p ->
     In p (canonical_blocks s) /\
     match b with
     | Latest => forall q, In q (canonical_blocks s) -> fst q <= fst p
     | Number n => fst p = n
     | Hash h => snd p = h
     end).
Proof. exact (block_id_spec b s). Qed.

Lemma block_id_agrees_with_block_exists_witness :
  block_id Latest signed_storage = Some (2, 102) /\
  In (2, 102) (canonical_blocks signed_storage).
Proof.
  assert (E : block_id Latest signed_storage = Some (2, 102)) by (vm_compute; reflexivity).
  split; [exact E|].
  exact (proj1 (proj2 (block_id_agrees_with_block_exists Latest signed_storage) _ E)).
Defined.

(** [block_is_l1_accepted]: with no L1-L2 pointer no block is L1 accepted;
    with pointer [l], block [n] is accepted exactly when the canonical index
    holds a row numbered [n] and [n <= l]; moving the pointer forward never
    revokes acceptance. *)
Theorem block_is_l1_accepted_spec (b : BlockId) (s : Storage) :
  block_is_l1_accepted None b s = false /\
  (forall l n, block_is_l1_accepted (Some l) (Number n) s = true <->
               n <= l /\ exists h, In (n, h) (canonical_blocks s)) /\
  (forall l l', l <= l' -> block_is_l1_accepted (Some l) b s = true ->
                block_is_l1_accepted (Some l') b s = true).
Proof.
  split; [reflexivity|]. split.
  - intros l n. destruct (block_id_spec (Number n) s) as [Hex Hsome].
    unfold block_is_l1_accepted.
    destruct (block_id (Number n) s) as [[m h]|] eqn:E.
    + destruct (Hsome _ eq_refl) as [Hin Hm]. simpl in Hm. subst m.
      rewrite Z.leb_le. split; [intros H; split; [exact H|exists h; exact Hin]|tauto].
    + split; [discriminate|]. intros [_ [h Hin]].
      assert (Hb : block_exists (Number n) s = true).
      { simpl. apply existsb_exists. exists (n, h). split; [exact Hin|apply Z.eqb_refl]. }
      apply Hex in Hb as [p Hp]. discriminate.
  - intros l l' Hl. unfold block_is_l1_accepted.
    destruct (block_id b s) as [[m h]|]; [|discriminate].
    rewrite !Z.leb_le. lia.
Qed.

Lemma block_is_l1_accepted_spec_witness :
  block_is_l1_accepted (Some 0) (Number 0) signed_storage = true /\
  block_is_l1_accepted (Some 5) (Number 0) signed_storage = true.
Proof.
  assert (E : block_is_l1_accepted (Some 0) (Number 0) signed_storage = true)
    by (vm_compute; reflexivity).
  split; [exact E|].
  destruct (block_is_l1_accepted_spec (Number 0) signed_storage) as [_ [_ Hmono]].
  apply (Hmono 0 5); [lia|exact E].
Defined.

Lemma find_filtered_out {A} (key : A -> Z) (l : list A) n :
  find (fun x => key x =? n) (filter (fun x => negb (key x =? n)) l) = None.
Proof.
  destruct (find _ _) as [x|] eqn:E; [|reflexivity].
  apply find_some in E as [Hin Heq]. apply filter_In in Hin as [_ Hneq].
  rewrite Heq in Hneq. discriminate.
Qed.

Lemma purge_block_ok n s : fst (purge_block n s) = Ok tt.
Proof.
  unfold purge_block, sql_delete_transactions_of, sql_delete_canonical, sql_delete_headers,
    sql_delete_index, bind, get, modify, ret.
  destruct (find (fun p => fst p =? n) (canonical_blocks s)) as [[m h]|]; reflexivity.
Qed.

Lemma purge_keeps_versions n s :
  starknet_versions (snd (purge_block n s)) = starknet_versions s.
Proof.
  unfold purge_block, sql_delete_transactions_of, sql_delete_canonical, sql_delete_headers,
    sql_delete_index, bind, get, modify, ret.
  destruct (find (fun p => fst p =? n) (canonical_blocks s)) as [[m h]|]; reflexivity.
Qed.

(** After [purge_block n], which never fails, block [n] is gone from every
    read: [block_exists] is false, [block_id] finds nothing and
    [block_header] returns [None]. *)
Theorem purge_block_hides_block (n : BlockNumber) (s : Storage) :
  fst (purge_block n s) = Ok tt /\
  block_exists (Number n) (snd (purge_block n s)) = false /\
  block_id (Number n) (snd (purge_block n s)) = None /\
  fst (block_header (Number n) (snd (purge_block n s))) = Ok None.
Proof.
  destruct (purge_chain_tables n s) as [Hc Hh].
  split; [apply purge_block_ok|].
  assert (Hf : find (fun p => fst p =? n) (canonical_blocks (snd (purge_block n s))) = None)
    by (rewrite Hc; apply (find_filtered_out fst)).
  split; [|split].
  - apply not_true_is_false. intros Hex.
    destruct (proj1 (proj1 (block_id_spec (Number n) _)) Hex) as [p Hp].
    simpl in Hp. rewrite Hf in Hp. discriminate.
  - simpl. rewrite Hf. reflexivity.
  - unfold block_header, bind, get. simpl. rewrite Hh, (find_filtered_out row_number).
    reflexivity.
Qed.

(** Purging a block number that no table holds changes nothing. *)
Theorem purge_absent_block_is_noop (n : BlockNumber) (s : Storage) :
  (forall p, In p (canonical_blocks s) -> fst p <> n) ->
  (forall r, In r (block_headers s) -> row_number r <> n) ->
  (forall t r, In r (index_rows s t) -> fst r <> n) ->
  starknet_versions (snd (purge_block n s)) = starknet_versions s /\
  block_headers (snd (purge_block n s)) = block_headers s /\
  canonical_blocks (snd (purge_block n s)) = canonical_blocks s /\
  starknet_transactions (snd (purge_block n s)) = starknet_transactions s /\
  (forall t, index_rows (snd (purge_block n s)) t = index_rows s t) /\
  class_definitions (snd (purge_block n s)) = class_definitions s.
Proof.
  intros Hc Hh Hi.
  assert (Hcf : filter (fun p => fst p =? n) (canonical_blocks s) = []).
  { destruct (filter _ _) as [|p l] eqn:E; [reflexivity|].
    assert (Hp : In p (filter (fun p => fst p =? n) (canonical_blocks s)))
      by (rewrite E; left; reflexivity).
    apply filter_In in Hp as [Hp Heq]. apply Z.eqb_eq in Heq. exfalso. exact (Hc p Hp Heq). }
  assert (Hfind : find (fun p => fst p =? n) (canonical_blocks s) = None).
  { destruct (find _ _) as [p|] eqn:E; [|reflexivity].
    apply find_some in E as [Hp Heq]. apply Z.eqb_eq in Heq. exfalso. exact (Hc p Hp Heq). }
  destruct (purge_chain_tables n s) as [Hc' Hh'].
  destruct (purge_block_state n s) as [Ht [Hidx Hcd]].
  rewrite Hcf in Hidx, Hcd.
  split; [apply purge_keeps_versions|]. split; [|split; [|split; [|split]]].
  - rewrite Hh'. apply filter_all_true. intros r Hr. apply negb_true_iff, Z.eqb_neq, Hh, Hr.
  - rewrite Hc'. apply filter_all_true. intros p Hp. apply negb_true_iff, Z.eqb_neq, Hc, Hp.
  - rewrite Ht, Hfind. reflexivity.
  - intros t. rewrite Hidx, on_delete_index_rows.
    destruct (existsb (IndexTable_eqb t) cascading_tables).
    + apply filter_all_true. intros r _. reflexivity.
    + apply filter_all_true. intros r Hr. apply negb_true_iff, Z.eqb_neq. exact (Hi t r Hr).
  - rewrite Hcd. unfold on_delete_canonical. simpl.
    rewrite <- (map_id (class_definitions s)) at 2. apply map_ext.
    intros [c [m|]]; reflexivity.
Qed.

Lemma purge_absent_block_is_noop_witness :
  block_headers (snd (purge_block 9 signed_storage)) = block_headers signed_storage.
Proof.
  apply (purge_absent_block_is_noop 9 signed_storage).
  - intros p Hp. vm_compute in Hp. repeat destruct Hp as [<-|Hp]; try contradiction; discriminate.
  - intros r Hr. vm_compute in Hr. repeat destruct Hr as [<-|Hr]; try contradiction; discriminate.
  - intros t r Hr. destruct t; vm_compute in Hr;
      repeat destruct Hr as [<-|Hr]; try contradiction; discriminate.
Defined.

Lemma find_app {A} (f : A -> bool) (l1 l2 : list A) :
  find f (l1 ++ l2) = match find f l1 with Some x => Some x | None => find f l2 end.
Proof.
  induction l1 as [|a l1 IH]; simpl; [reflexivity|].
  destruct (f a); [reflexivity|exact IH].
Qed.

Lemma find_unique_key {A} (key : A -> Z) (l : list A) (x : A) :
  NoDup (map key l) -> In x l -> find (fun y => key y =? key x) l = Some x.
Proof.
  induction l as [|a l IH]; simpl; [contradiction|].
  intros Hnd Hin. inversion Hnd as [|? ? Hnot Hnd']; subst.
  destruct Hin as [<-|Hin]; [rewrite Z.eqb_refl; reflexivity|].
  destruct (Z.eqb_spec (key a) (key x)) as [E|E]; [|exact (IH Hnd' Hin)].
  exfalso. apply Hnot. rewrite E. apply in_map. exact Hin.
Qed.

Lemma find_none_of_existsb {A} (f g : A -> bool) (l : list A) :
  existsb g l = false -> (forall x, f x = true -> g x = true) -> find f l = None.
Proof.
  intros He Hfg. destruct (find f l) as [x|] eqn:E; [|reflexivity].
  apply find_some in E as [Hin Hf]. specialize (Hfg x Hf).
  rewrite (existsb_false_in g l x He Hin) in Hfg. discriminate.
Qed.

Lemma NoDup_app_single {A} (l : list A) (a : A) :
  NoDup l -> ~ In a l -> NoDup (l ++ [a]).
Proof.
  induction l as [|b l IH]; simpl; intros Hnd Hnot.
  - constructor; [intros []|constructor].
  - inversion Hnd; subst. constructor.
    + rewrite in_app_iff. intros [H|[H|[]]]; [tauto|]. apply Hnot. left. symmetry. exact H.
    + apply IH; [assumption|]. intros H. apply Hnot. right. exact H.
Qed.

Lemma NoDup_map_filter {A} (key : A -> Z) (f : A -> bool) (l : list A) :
  NoDup (map key l) -> NoDup (map key (filter f l)).
Proof.
  induction l as [|a l IH]; simpl; intros Hnd; [constructor|].
  inversion Hnd as [|? ? Hnot Hnd']; subst.
  destruct (f a); simpl; [|exact (IH Hnd')].
  constructor; [|exact (IH Hnd')].
  intros Hin. apply Hnot. apply in_map_iff in Hin as [y [Hy Hyin]].
  apply filter_In in Hyin as [Hyin _]. rewrite <- Hy. apply in_map. exact Hyin.
Qed.

Lemma fold_max_version_ge (vs : list (Z * StarknetVersion)) (m : Z) :
  m <= fold_left (fun m r => Z.max m (fst r)) vs m /\
  forall r, In r vs -> fst r <= fold_left (fun m r => Z.max m (fst r)) vs m.
Proof.
  revert m. induction vs as [|a vs IH]; simpl; intros m; [split; [lia|intros r []]|].
  destruct (IH (Z.max m (fst a))) as [H1 H2]. split; [lia|].
  intros r [<-|Hr]; [lia|exact (H2 r Hr)].
Qed.

Lemma intern_ok v s : exists id s1, intern_starknet_version v s = (Ok id, s1).
Proof.
  unfold intern_starknet_version, bind, get.
  destruct (find _ _) as [[id v']|]; eexists; eexists; reflexivity.
Qed.

Lemma find_none_forall {A} (f : A -> bool) (l : list A) :
  (forall x, In x l -> f x = false) -> find f l = None.
Proof.
  intros H. destruct (find f l) as [x|] eqn:E; [|reflexivity].
  apply find_some in E as [Hin Hf]. rewrite (H x Hin) in Hf. discriminate.
Qed.

Lemma intern_spec v s :
  NoDup (map fst (starknet_versions s)) ->
  exists id, fst (intern_starknet_version v s) = Ok id /\
    version_of (Some id) (snd (intern_starknet_version v s)) = v /\
    intern_starknet_version v (snd (intern_starknet_version v s))
      = (Ok id, snd (intern_starknet_version v s)) /\
    NoDup (map fst (starknet_versions (snd (intern_starknet_version v s)))).
Proof.
  intros Hnd.
  destruct (find (fun r => snd r =? v) (starknet_versions s)) as [[id v']|] eqn:E.
  - assert (Hi : intern_starknet_version v s = (Ok id, s))
      by (unfold intern_starknet_version, bind, get; rewrite E; reflexivity).
    rewrite Hi. cbn [fst snd]. exists id.
    apply find_some in E as [Hin Hv]. cbn [snd] in Hv. apply Z.eqb_eq in Hv. subst v'.
    split; [reflexivity|]. split; [|split; [exact Hi|exact Hnd]].
    pose proof (find_unique_key fst _ (id, v) Hnd Hin) as F. cbn [fst] in F.
    unfold version_of. rewrite F. reflexivity.
  - set (id := max_version_id (starknet_versions s) + 1).
    set (s1 := set_starknet_versions (starknet_versions s ++ [(id, v)]) s).
    assert (Hi : intern_starknet_version v s = (Ok id, s1))
      by (unfold intern_starknet_version, bind, get, modify, ret; rewrite E; reflexivity).
    assert (Hnew : forall r, In r (starknet_versions s) -> fst r <> id).
    { intros r Hr. destruct (fold_max_version_ge (starknet_versions s) 0) as [_ H].
      specialize (H r Hr). unfold id, max_version_id. lia. }
    rewrite Hi. cbn [fst snd]. exists id.
    split; [reflexivity|]. split; [|split].
    + unfold version_of, s1. cbn [starknet_versions set_starknet_versions].
      rewrite find_app, find_none_forall; [simpl; rewrite Z.eqb_refl; reflexivity|].
      intros r Hr. apply Z.eqb_neq. exact (Hnew r Hr).
    + unfold intern_starknet_version, bind, get, ret, s1.
      cbn [starknet_versions set_starknet_versions].
      rewrite find_app, E. simpl. rewrite Z.eqb_refl. reflexivity.
    + unfold s1. cbn [starknet_versions set_starknet_versions].
      rewrite map_app. apply NoDup_app_single; [exact Hnd|].
      intros Hin. apply in_map_iff in Hin as [r [Hr Hrin]]. exact (Hnew r Hrin Hr).
Qed.

(** Interning a StarkNet version yields an id under which the version is
    read back. Interning the same version again returns the same id and
    leaves the storage as it is. The ids stay distinct. *)
Theorem intern_starknet_version_round_trip (v : StarknetVersion) (s : Storage) :
  NoDup (map fst (starknet_versions s)) ->
  exists id, fst (intern_starknet_version v s) = Ok id /\
    version_of (Some id) (snd (intern_starknet_version v s)) = v /\
    intern_starknet_version v (snd (intern_starknet_version v s))
      = (Ok id, snd (intern_starknet_version v s)) /\
    NoDup (map fst (starknet_versions (snd (intern_starknet_version v s)))).
Proof. exact (intern_spec v s). Qed.

Lemma intern_starknet_version_round_trip_witness :
  exists id, fst (intern_starknet_version 13 signed_storage) = Ok id /\
    version_of (Some id) (snd (intern_starknet_version 13 signed_storage)) = 13 /\
    intern_starknet_version 13 (snd (intern_starknet_version 13 signed_storage))
      = (Ok id, snd (intern_starknet_version 13 signed_storage)) /\
    NoDup (map fst (starknet_versions (snd (intern_starknet_version 13 signed_storage)))).
Proof.
  apply intern_starknet_version_round_trip.
  vm_compute. repeat constructor; simpl; lia.
Defined.

Lemma insert_block_header_ok_inv h s u s' :
  insert_block_header h s = (Ok u, s') ->
  exists id s1, intern_starknet_version (starknet_version h) s = (Ok id, s1) /\
    transaction_count h <= i64_max /\ event_count h <= i64_max /\
    existsb (fun r' => (row_number r' =? number h) || (row_hash r' =? hash h))
      (block_headers s1) = false /\
    existsb (fun p => fst p =? number h) (canonical_blocks s1) = false /\
    s' = set_canonical_blocks (canonical_blocks s1 ++ [(number h, hash h)])
           (set_block_headers
              (block_headers s1 ++ [header_row h id (transaction_count h) (event_count h)]) s1).
Proof.
  destruct (intern_ok (starknet_version h) s) as [id [s1 Ei]].
  unfold insert_block_header, bind. rewrite Ei.
  unfold lift, try_into_sql_int, ret, fail.
  destruct (Z.leb_spec (transaction_count h) i64_max) as [Ht|Ht]; [|discriminate].
  destruct (Z.leb_spec (event_count h) i64_max) as [He|He]; [|discriminate].
  unfold sql_insert_header_row, sql_insert_canonical, bind, get, modify, fail.
  cbn [header_row row_number row_hash].
  destruct (existsb _ (block_headers s1)) eqn:E1; [discriminate|].
  cbv beta iota zeta. cbn [block_headers canonical_blocks set_block_headers].
  match goal with |- context [existsb ?f (canonical_blocks ?x)] =>
    destruct (existsb f (canonical_blocks x)) eqn:E2 end; [discriminate|].
  intros H. inversion H; subst.
  exists id, s1. tauto.
Qed.

Lemma keys_unique_after_insert h s :
  storage_keys_unique s -> storage_keys_unique (snd (insert_block_header h s)).
Proof.
  intros Hk. destruct Hk as [Hn [Hh [Hc Hv]]].
  destruct (intern_spec (starknet_version h) s Hv) as [id [Hid [_ [_ Hv1]]]].
  pose proof (intern_keeps_chain_tables (starknet_version h) s) as [Hc1 Hh1].
  unfold insert_block_header, bind.
  destruct (intern_starknet_version (starknet_version h) s) as [r s1].
  cbn [fst snd] in Hid, Hv1, Hc1, Hh1. subst r.
  assert (Hs1 : storage_keys_unique s1)
    by (unfold storage_keys_unique; rewrite Hc1, Hh1; tauto).
  unfold lift, try_into_sql_int, ret, fail.
  destruct (transaction_count h <=? i64_max); [|exact Hs1].
  destruct (event_count h <=? i64_max); [|exact Hs1].
  unfold sql_insert_header_row, sql_insert_canonical, bind, get, modify, fail.
  cbn [header_row row_number row_hash].
  destruct (existsb _ (block_headers s1)) eqn:E1; [exact Hs1|].
  cbv beta iota zeta. cbn [block_headers canonical_blocks set_block_headers].
  destruct Hs1 as [Hn1 [Hh1' [Hc1' Hv1']]].
  assert (Hrows : NoDup (map row_number
                           (block_headers s1 ++ [header_row h id (transaction_count h) (event_count h)]))
                  /\ NoDup (map row_hash
                           (block_headers s1 ++ [header_row h id (transaction_count h) (event_count h)]))).
  { rewrite !map_app. split; apply NoDup_app_single; auto; cbn;
      intros Hin; apply in_map_iff in Hin as [r [Hr Hrin]];
      pose proof (existsb_false_in _ _ r E1 Hrin) as F; cbv beta in F; rewrite Hr, Z.eqb_refl in F;
      [discriminate|rewrite orb_true_r in F; discriminate]. }
  match goal with |- context [existsb ?f (canonical_blocks ?x)] =>
    destruct (existsb f (canonical_blocks x)) eqn:E2 end; cbn [snd].
  - unfold storage_keys_unique. cbn. tauto.
  - unfold storage_keys_unique. cbn. split; [tauto|]. split; [tauto|]. split; [|exact Hv1'].
    rewrite map_app. apply NoDup_app_single; [exact Hc1'|].
    intros Hin. apply in_map_iff in Hin as [p [Hp Hpin]].
    cbn in E2, Hp. pose proof (existsb_false_in _ _ p E2 Hpin) as F. cbv beta in F.
    apply Z.eqb_neq in F. exact (F Hp).
Qed.

Lemma keys_unique_after_purge n s :
  storage_keys_unique s -> storage_keys_unique (snd (purge_block n s)).
Proof.
  intros [Hn [Hh [Hc Hv]]]. destruct (purge_chain_tables n s) as [Hc' Hh'].
  unfold storage_keys_unique. rewrite Hc', Hh', purge_keeps_versions.
  refine (conj _ (conj _ (conj _ Hv))); apply NoDup_map_filter; assumption.
Qed.

(** Inserting a header and purging a block both keep the storage keys
    unique: header numbers, header hashes, canonical numbers and version ids. *)
Theorem insert_and_purge_keep_keys_unique :
  (forall h s, storage_keys_unique s -> storage_keys_unique (snd (insert_block_header h s))) /\
  (forall n s, storage_keys_unique s -> storage_keys_unique (snd (purge_block n s))).
Proof. exact (conj keys_unique_after_insert keys_unique_after_purge). Qed.

Lemma insert_and_purge_keep_keys_unique_witness :
  storage_keys_unique empty_storage /\
  storage_keys_unique (snd (purge_block 0 (snd (insert_block_header (chain_header 0) empty_storage)))).
Proof.
  assert (H0 : storage_keys_unique empty_storage) by (repeat split; constructor).
  split; [exact H0|].
  destruct insert_and_purge_keep_keys_unique as [Hi Hp].
  apply Hp, Hi, H0.
Defined.

(** [insert_block_header] rejects a header whose transaction or event count
    does not fit in an [i64], and a header whose number or hash is already
    stored; the header and canonical tables are then left unchanged. *)
Theorem insert_block_header_errors (h : BlockHeader) (s : Storage) :
  ((i64_max < transaction_count h \/
    (transaction_count h <= i64_max /\ i64_max < event_count h)) ->
   fst (insert_block_header h s) = Err IntegerConversion /\
   block_headers (snd (insert_block_header h s)) = block_headers s /\
   canonical_blocks (snd (insert_block_header h s)) = canonical_blocks s) /\
  (transaction_count h <= i64_max -> event_count h <= i64_max ->
   (exists r, In r (block_headers s) /\ (row_number r = number h \/ row_hash r = hash h)) ->
   fst (insert_block_header h s) = Err ConstraintViolation /\
   block_headers (snd (insert_block_header h s)) = block_headers s /\
   canonical_blocks (snd (insert_block_header h s)) = canonical_blocks s).
Proof.
  destruct (intern_ok (starknet_version h) s) as [id [s1 Ei]].
  pose proof (intern_keeps_chain_tables (starknet_version h) s) as [Hc Hh].
  rewrite Ei in Hc, Hh. cbn [snd] in Hc, Hh.
  unfold insert_block_header, bind. rewrite Ei.
  unfold lift, try_into_sql_int, ret, fail. split.
  - intros [Ht|[Ht He]].
    + destruct (Z.leb_spec (transaction_count h) i64_max); [lia|]. cbn. tauto.
    + destruct (Z.leb_spec (transaction_count h) i64_max); [|lia].
      destruct (Z.leb_spec (event_count h) i64_max); [lia|]. cbn. tauto.
  - intros Ht He [r [Hr Hnh]].
    destruct (Z.leb_spec (transaction_count h) i64_max); [|lia].
    destruct (Z.leb_spec (event_count h) i64_max); [|lia].
    unfold sql_insert_header_row, bind, get, fail.
    cbn [header_row row_number row_hash].
    assert (Ex : existsb (fun r' => (row_number r' =? number h) || (row_hash r' =? hash h))
                   (block_headers s1) = true).
    { apply existsb_exists. exists r. rewrite Hh. split; [exact Hr|].
      destruct Hnh as [E|E]; rewrite E, Z.eqb_refl; [reflexivity|apply orb_true_r]. }
    rewrite Ex. cbn. tauto.
Qed.

Lemma insert_block_header_errors_witness :
  fst (insert_block_header (chain_header 1) signed_storage) = Err ConstraintViolation.
Proof.
  destruct (insert_block_header_errors (chain_header 1) signed_storage) as [_ H].
  apply H; [vm_compute; discriminate|vm_compute; discriminate|].
  exists (header_row (chain_header 1) 1 0 0). split; [vm_compute; tauto|left; reflexivity].
Defined.

Lemma header_row_round_trip h id :
  header_of_row (header_row h id (transaction_count h) (event_count h)) (starknet_version h)
  = with_parent_hash h 0.
Proof. destruct h; reflexivity. Qed.

Lemma with_parent_hash_twice h p q :
  with_parent_hash (with_parent_hash h p) q = with_parent_hash h q.
Proof. destruct h; reflexivity. Qed.

Lemma with_parent_hash_own h : with_parent_hash h (parent_hash h) = h.
Proof. destruct h; reflexivity. Qed.

Lemma insert_then_lookup h s u s' :
  storage_keys_unique s ->
  insert_block_header h s = (Ok u, s') ->
  (number h = 0 /\ parent_hash h = 0 \/
   number h <> 0 /\ exists p, In p (block_headers s) /\
                              row_number p = number h - 1 /\ row_hash p = parent_hash h) ->
  block_header (Number (number h)) s' = (Ok (Some h), s') /\
  block_header (Hash (hash h)) s' = (Ok (Some h), s').
Proof.
  intros [Hn [Hh [Hc Hv]]] Hins Hpar.
  apply insert_block_header_ok_inv in Hins as [id [s1 [Ei [Ht [He [E1 [E2 Hs']]]]]]].
  destruct (intern_spec (starknet_version h) s Hv) as [id' [Hid [Hver _]]].
  rewrite Ei in Hid, Hver. cbn [fst snd] in Hid, Hver. injection Hid as <-.
  pose proof (intern_keeps_chain_tables (starknet_version h) s) as [_ Hh1].
  rewrite Ei in Hh1. cbn [snd] in Hh1.
  assert (Hv' : version_of (Some id) s' = starknet_version h) by (rewrite Hs'; exact Hver).
  assert (Hrows : block_headers s'
                  = block_headers s1 ++ [header_row h id (transaction_count h) (event_count h)])
    by (rewrite Hs'; reflexivity).
  assert (Hres : forall b, select_header b s'
                           = Some (header_row h id (transaction_count h) (event_count h)) ->
                           block_header b s' = (Ok (Some h), s')).
  { intros b Hb. unfold block_header, bind, get. rewrite Hb.
    cbn [header_row row_number row_version_id row_hash]. rewrite Hv', header_row_round_trip.
    destruct Hpar as [[H0 Hp0]|[H0 [p [Hp [Hpn Hph]]]]].
    - rewrite H0. cbn. rewrite <- Hp0, with_parent_hash_own. reflexivity.
    - destruct (Z.eqb_spec (number h) 0) as [E|E]; [contradiction|]. cbn [negb].
      rewrite Hrows, find_app.
      rewrite <- Hh1 in Hn, Hp.
      pose proof (find_unique_key row_number (block_headers s1) p Hn Hp) as F.
      rewrite Hpn in F. rewrite F.
      unfold ret. rewrite with_parent_hash_twice, Hph, with_parent_hash_own. reflexivity. }
  split; apply Hres; cbn [select_header]; rewrite Hrows, find_app, (find_none_of_existsb _ _ _ E1);
    try (cbn; rewrite Z.eqb_refl; reflexivity);
    intros r Hr; rewrite Hr; [reflexivity|apply orb_true_r].
Qed.

(** After a successful [insert_block_header] into a storage with unique
    keys, [block_header] reads the header back by its number and by its hash,
    with its parent hash. This holds for a genesis header (number 0, parent
    hash 0) and for a header whose parent is stored at number - 1. *)
Theorem insert_block_header_then_read_back (h : BlockHeader) (s : Storage) (u : unit) (s' : Storage) :
  storage_keys_unique s ->
  insert_block_header h s = (Ok u, s') ->
  (number h = 0 /\ parent_hash h = 0 \/
   number h <> 0 /\ exists p, In p (block_headers s) /\
                              row_number p = number h - 1 /\ row_hash p = parent_hash h) ->
  block_header (Number (number h)) s' = (Ok (Some h), s') /\
  block_header (Hash (hash h)) s' = (Ok (Some h), s').
Proof. exact (insert_then_lookup h s u s'). Qed.

Lemma insert_block_header_then_read_back_witness :
  block_header (Hash 100) (snd (insert_block_header (mk_header 0 100 0) empty_storage))
  = (Ok (Some (mk_header 0 100 0)), snd (insert_block_header (mk_header 0 100 0) empty_storage)).
Proof.
  apply (insert_block_header_then_read_back (mk_header 0 100 0) empty_storage tt).
  - repeat split; constructor.
  - vm_compute. reflexivity.
  - left. split; reflexivity.
Defined.

(** A header built with [child_builder] from a stored header [g] and
    finalised with a hash [x] has number [number g + 1], parent hash
    [hash g] and hash [x]. Once inserted, [block_header] reads it back at
    that number. *)
Theorem child_header_insert_read_back (g : BlockHeader) (x : BlockHash) (s : Storage)
  (u : unit) (s' : Storage) :
  storage_keys_unique s ->
  0 <= number g ->
  In (number g, hash g) (map number_and_hash (block_headers s)) ->
  insert_block_header (finalize_with_hash (child_builder g) x) s = (Ok u, s') ->
  number (finalize_with_hash (child_builder g) x) = number g + 1 /\
  parent_hash (finalize_with_hash (child_builder g) x) = hash g /\
  hash (finalize_with_hash (child_builder g) x) = x /\
  block_header (Number (number g + 1)) s'
  = (Ok (Some (finalize_with_hash (child_builder g) x)), s').
Proof.
  intros Hk Hg Hin Hins.
  assert (Hn : number (finalize_with_hash (child_builder g) x) = number g + 1) by reflexivity.
  assert (Hp : parent_hash (finalize_with_hash (child_builder g) x) = hash g) by reflexivity.
  refine (conj Hn (conj Hp (conj eq_refl _))).
  rewrite <- Hn.
  refine (proj1 (insert_then_lookup _ s u s' Hk Hins _)).
  right. rewrite Hn, Hp. split; [lia|].
  apply in_map_iff in Hin as [p [Hpe Hpin]]. unfold number_and_hash in Hpe.
  injection Hpe as Hpn Hph. exists p. split; [exact Hpin|]. split; [lia|exact Hph].
Qed.

Definition child_base : Storage := stored [chain_header 0; chain_header 1; chain_header 2].

Lemma child_header_insert_read_back_witness :
  block_header (Number 3)
    (snd (insert_block_header (finalize_with_hash (child_builder (chain_header 2)) 555) child_base))
  = (Ok (Some (finalize_with_hash (child_builder (chain_header 2)) 555)),
     snd (insert_block_header (finalize_with_hash (child_builder (chain_header 2)) 555) child_base)).
Proof.
  apply (child_header_insert_read_back (chain_header 2) 555 child_base tt).
  - vm_compute. repeat split; repeat constructor; simpl; lia.
  - vm_compute. discriminate.
  - vm_compute. tauto.
  - vm_compute. reflexivity.
Defined.

Lemma select_header_spec (b : BlockId) (s : Storage) :
  (select_header b s = None <->
   match b with
   | Latest => block_headers s = []
   | Number n => forall r, In r (block_headers s) -> row_number r <> n
   | Hash x => forall r, In r (block_headers s) -> row_hash r <> x
   end) /\
  (forall r, select_header b s = Some r ->
   In r (block_headers s) /\
   match b with
   | Latest => forall r', In r' (block_headers s) -> row_number r' <= row_number r
   | Number n => row_number r = n
   | Hash x => row_hash r = x
   end).
Proof.
  destruct b as [|n|x]; cbn [select_header].
  - split; [apply max_by_number_none|apply max_by_number_some].
  - split.
    + split.
      * intros E r Hr Heq. apply (find_none _ _ E) in Hr. cbv beta in Hr.
        rewrite Heq, Z.eqb_refl in Hr. discriminate.
      * intros H. apply find_none_forall. intros r Hr. apply Z.eqb_neq, H, Hr.
    + intros r E. apply find_some in E as [Hin Heq]. split; [exact Hin|apply Z.eqb_eq, Heq].
  - split.
    + split.
      * intros E r Hr Heq. apply (find_none _ _ E) in Hr. cbv beta in Hr.
        rewrite Heq, Z.eqb_refl in Hr. discriminate.
      * intros H. apply find_none_forall. intros r Hr. apply Z.eqb_neq, H, Hr.
    + intros r E. apply find_some in E as [Hin Heq]. split; [exact Hin|apply Z.eqb_eq, Heq].
Qed.

(** [block_header] only reads. It returns [None] exactly when no header row
    matches the id. A header it returns is a stored row matching the id: the
    highest-numbered row for [Latest]. Its only error is
    [QueryReturnedNoRows], raised when the selected row has a nonzero number
    and no row is stored at the number below. *)
Theorem block_header_reads_stored_row (b : BlockId) (s : Storage) :
  snd (block_header b s) = s /\
  (fst (block_header b s) = Ok None <->
   match b with
   | Latest => block_headers s = []
   | Number n => forall r, In r (block_headers s) -> row_number r <> n
   | Hash x => forall r, In r (block_headers s) -> row_hash r <> x
   end) /\
  (forall h, fst (block_header b s) = Ok (Some h) ->
   In (number h, hash h) (map number_and_hash (block_headers s)) /\
   match b with
   | Latest => forall r, In r (block_headers s) -> row_number r <= number h
   | Number n => number h = n
   | Hash x => hash h = x
   end) /\
  (forall e, fst (block_header b s) = Err e ->
   e = QueryReturnedNoRows /\
   exists r, select_header b s = Some r /\ row_number r <> 0 /\
             forall p, In p (block_headers s) -> row_number p <> row_number r - 1).
Proof.
  destruct (select_header_spec b s) as [Hnone Hsome].
  unfold block_header, bind, get, ret, fail.
  destruct (select_header b s) as [r|] eqn:Sel.
  - destruct (Hsome r eq_refl) as [Hin Hm].
    assert (Hnn : ~ match b with
                    | Latest => block_headers s = []
                    | Number n => forall r, In r (block_headers s) -> row_number r <> n
                    | Hash x => forall r, In r (block_headers s) -> row_hash r <> x
                    end) by (intros H; apply Hnone in H; discriminate H).
    destruct (negb (row_number r =? 0)) eqn:Nz;
      [destruct (find (fun r' => row_number r' =? row_number r - 1) (block_headers s))
         as [p|] eqn:Fp|].
    + cbn [fst snd]. split; [reflexivity|]. split; [split; [discriminate|tauto]|].
      split; [|intros e E; discriminate E].
      intros h E. injection E as <-. split; [apply in_number_and_hash, Hin|].
      destruct b; exact Hm.
    + cbn [fst snd]. split; [reflexivity|]. split; [split; [discriminate|tauto]|].
      split; [intros h E; discriminate E|].
      intros e E. injection E as <-. split; [reflexivity|].
      exists r. split; [reflexivity|]. split.
      * apply negb_true_iff, Z.eqb_neq in Nz. exact Nz.
      * intros p Hp Heq. apply (find_none _ _ Fp) in Hp. cbv beta in Hp.
        rewrite Heq, Z.eqb_refl in Hp. discriminate.
    + cbn [fst snd]. split; [reflexivity|]. split; [split; [discriminate|tauto]|].
      split; [|intros e E; discriminate E].
      intros h E. injection E as <-. split; [apply in_number_and_hash, Hin|].
      destruct b; exact Hm.
  - cbn [fst snd]. split; [reflexivity|].
    split; [split; [intros _; apply Hnone; reflexivity|reflexivity]|].
    split; [intros h E; discriminate E|intros e E; discriminate E].
Qed.

Lemma block_header_reads_stored_row_witness :
  In (2, 102) (map number_and_hash (block_headers signed_storage)).
Proof.
  destruct (block_header_reads_stored_row (Number 2) signed_storage) as [_ [_ [Hs _]]].
  apply (Hs (chain_header 2)). vm_compute. reflexivity.
Defined.

(** The header-sync errors raised on peer data carry that data: a
    [verify_with] error and a [check_continuity] error give back the input
    through [peer_id_and_data]. A [persist] error carries no peer data and
    leaves the storage as it was. *)
Theorem sync_errors_carry_peer_data :
  (forall vs vh x e, verify_with vs vh x = Returns (Err e) -> peer_id_and_data e = Some x) /\
  (forall expected x e st, check_continuity expected x = (Some (Err e), st) ->
                           peer_id_and_data e = Some x) /\
  (forall batch s e s', persist batch s = Returns (Err e, s') ->
                        peer_id_and_data e = None /\ s' = s).
Proof.
  split; [|split].
  - intros vs vh x e. unfold verify_with.
    destruct (vs (data x)); cbn [negb];
      [destruct (vh (header (data x))) as [[|]|]|];
      intros H; inversion H; reflexivity.
  - intros [[en eh] p] x e st. unfold check_continuity.
    destruct p; [intros H; inversion H|].
    destruct ((number (header (data x)) =? en) && (hash (header (data x)) =? eh));
      intros H; inversion H; reflexivity.
  - intros batch s e s'. unfold persist.
    destruct (persist_all batch s) as [[u|e0] s0]; [destruct (last_opt batch)|];
      intros H; inversion H; subst; auto.
Qed.

Lemma sync_errors_carry_peer_data_witness :
  peer_id_and_data (Discontinuity (peer_header 1)) = Some (peer_header 1).
Proof.
  apply ((proj1 (proj2 sync_errors_carry_peer_data)) (0, 100, false) (peer_header 1) _
           (snd (check_continuity (0, 100, false) (peer_header 1)))).
  vm_compute. reflexivity.
Defined.
